(** * NFL data pipeline: extractor (load_api.py) and loader (load_csv_to_oracle.py)

    A shallow embedding of the two scripts.  Python values that come out of
    the remote service are JSON values; [None] is [JNull].  Remote calls are
    answered by a [world] (URL to optional body); every function that talks
    to the network or prints runs in the monad [M], which collects the
    printed lines and the issued GET requests and carries an uncaught
    Python exception, if any.

    JSON numbers are integers here (identifiers, scores and counters), of
    the 4300 digits at most that Python's parser and [str] accept; numbers
    with a fraction are outside the model, and strings are ASCII.
    Team ids that pandas holds as floats are followed up to 2^53, where the
    float is the integer.  The loader's database calls and the parsing of
    dates are recorded or applied as given and taken to succeed; the CSV
    files are given as the data frames [pd.read_csv] makes of them. *)

From Stdlib Require Import ZArith Ascii String List Lia.
From stdpp Require Import base option list gmap strings pretty.

Set Warnings "-register-all,-clear-no-such-hyp".


Local Open Scope string_scope.
Local Open Scope list_scope.
Local Open Scope Z_scope.

(* ===================================================================== *)
(** ** Python values *)
(* ===================================================================== *)

Inductive json : Type :=
  | JNull
  | JBool (b : bool)
  | JNum (z : Z)
  | JStr (s : string)
  | JArr (l : list json)
  | JObj (kv : list (string * json)).

(** Uncaught exceptions; the last three carry their message. *)
Inductive exn : Type :=
  | AttributeError
  | TypeError
  | IndexError
  | KeyError
  | FileNotFoundError
  | ValueError (msg : string)
  | SystemExit (msg : string)
  | RuntimeError (msg : string).

Inductive result (A : Type) : Type :=
  | Ok (a : A)
  | Raise (e : exn).
Arguments Ok {A} a.
Arguments Raise {A} e.

#[global] Instance result_ret : MRet result := fun A a => Ok a.
#[global] Instance result_bind : MBind result := fun A B f m =>
  match m with
  | Ok a => f a
  | Raise e => Raise e
  end.
#[global] Instance result_fmap : FMap result := fun A B f m =>
  match m with
  | Ok a => Ok (f a)
  | Raise e => Raise e
  end.

(** [bool(v)] *)
Definition truthy (v : json) : bool :=
  match v with
  | JNull => false
  | JBool b => b
  | JNum z => negb (z =? 0)
  | JStr s => negb (String.eqb s "")
  | JArr l => match l with [] => false | _ => true end
  | JObj kv => match kv with [] => false | _ => true end
  end.

(** [a or b] *)
Definition py_or (a b : json) : json := if truthy a then a else b.

(** Truthiness and [or] on [Optional[int]]. *)
Definition truthy_int (o : option Z) : bool :=
  match o with
  | Some z => negb (z =? 0)
  | None => false
  end.

Definition or_int (a b : option Z) : option Z := if truthy_int a then a else b.

Fixpoint assoc (k : string) (kv : list (string * json)) : option json :=
  match kv with
  | [] => None
  | (k', v) :: rest => if String.eqb k k' then Some v else assoc k rest
  end.

(** [o.get(k, d)]; anything but a dict has no [get]. *)
Definition py_get_default (o : json) (k : string) (d : json) : result json :=
  match o with
  | JObj kv => Ok (default d (assoc k kv))
  | _ => Raise AttributeError
  end.

(** [o.get(k)] *)
Definition py_get (o : json) (k : string) : result json := py_get_default o k JNull.

Fixpoint chars (s : string) : list json :=
  match s with
  | EmptyString => []
  | String c r => JStr (String c EmptyString) :: chars r
  end.

(** The items a [for] loop sees: list elements, the characters of a string,
    the keys of a dict; the other values are not iterable. *)
Definition py_iter (v : json) : result (list json) :=
  match v with
  | JArr l => Ok l
  | JStr s => Ok (chars s)
  | JObj kv => Ok (map (fun p => JStr (fst p)) kv)
  | _ => Raise TypeError
  end.

(** [v == s] for a string literal [s] *)
Definition py_eq_str (v : json) (s : string) : bool :=
  match v with
  | JStr t => String.eqb t s
  | _ => false
  end.

(* ===================================================================== *)
(** ** Strings *)
(* ===================================================================== *)

(** [s[:n]] *)
Fixpoint str_take (n : nat) (s : string) : string :=
  match n, s with
  | S n', String c r => String c (str_take n' r)
  | _, _ => EmptyString
  end.

(** [v[:n]]: strings and lists can be sliced. *)
Definition py_slice_to (n : nat) (v : json) : result json :=
  match v with
  | JStr s => Ok (JStr (str_take n s))
  | JArr l => Ok (JArr (firstn n l))
  | _ => Raise TypeError
  end.

(** Characters [str.split()] and [str.strip()] treat as blank. *)
Definition is_py_space (c : ascii) : bool :=
  let n := nat_of_ascii c in
  (((9 <=? n) && (n <=? 13)) || ((28 <=? n) && (n <=? 32)))%nat.

(** Characters [int()] skips around a number: tab to carriage return, and
    the space; not the separators 28 to 31. *)
Definition is_int_space (c : ascii) : bool :=
  let n := nat_of_ascii c in
  (((9 <=? n) && (n <=? 13)) || (n =? 32))%nat.

Definition upper_char (c : ascii) : ascii :=
  let n := nat_of_ascii c in
  if ((97 <=? n) && (n <=? 122))%nat then ascii_of_nat (n - 32) else c.

(** [s.upper()] *)
Fixpoint py_upper (s : string) : string :=
  match s with
  | EmptyString => EmptyString
  | String c r => String (upper_char c) (py_upper r)
  end.

Fixpoint lstrip_by (p : ascii -> bool) (s : string) : string :=
  match s with
  | EmptyString => EmptyString
  | String c r => if p c then lstrip_by p r else s
  end.

Definition rstrip_by (p : ascii -> bool) (s : string) : string :=
  String.rev (lstrip_by p (String.rev s)).

(** [s.strip()] *)
Definition py_strip (s : string) : string := rstrip_by is_py_space (lstrip_by is_py_space s).

(** [s.split()]: [cur] is the token being read, reversed. *)
Fixpoint py_split_go (cur : string) (s : string) : list string :=
  match s with
  | EmptyString => match cur with EmptyString => [] | _ => [String.rev cur] end
  | String c r =>
      if is_py_space c then
        match cur with
        | EmptyString => py_split_go EmptyString r
        | _ => String.rev cur :: py_split_go EmptyString r
        end
      else py_split_go (String c cur) r
  end.

Definition py_split (s : string) : list string := py_split_go EmptyString s.

(** [s.split(sep)] for a one-character separator; never empty. *)
Fixpoint split_on (sep : ascii) (s : string) : list string :=
  match s with
  | EmptyString => [EmptyString]
  | String c r =>
      if Ascii.eqb c sep then EmptyString :: split_on sep r
      else match split_on sep r with
           | h :: t => String c h :: t
           | [] => [String c EmptyString]
           end
  end.

Definition is_digit (c : ascii) : bool :=
  let n := nat_of_ascii c in ((48 <=? n) && (n <=? 57))%nat.

Definition digit_val (c : ascii) : Z := Z.of_nat (nat_of_ascii c - 48).

(** Digits of a decimal literal; single underscores may separate digits. *)
Fixpoint parse_digits (s : string) (acc : Z) (after_digit : bool) : option Z :=
  match s with
  | EmptyString => if after_digit then Some acc else None
  | String c r =>
      if is_digit c then parse_digits r (10 * acc + digit_val c) true
      else if Ascii.eqb c "_"%char && after_digit then parse_digits r acc false
      else None
  end.

(** [sys.get_int_max_str_digits()] as CPython sets it: [int()] refuses a
    string with more digits, and [str()] an integer with more. *)
Definition int_max_str_digits : Z := 4300.

(** The digits of [s], leading zeros included, underscores not. *)
Fixpoint count_digits (s : string) : Z :=
  match s with
  | EmptyString => 0
  | String c r => (if is_digit c then 1 else 0) + count_digits r
  end.

(** A decimal literal without sign, within the digit limit. *)
Definition parse_decimal (s : string) : option Z :=
  if int_max_str_digits <? count_digits s then None else parse_digits s 0 false.

(** [int(s)] for a string: white space around, an optional sign, digits;
    [None] where [int] raises. *)
Definition int_of_str (s : string) : option Z :=
  match rstrip_by is_int_space (lstrip_by is_int_space s) with
  | String "-"%char r => Z.opp <$> parse_decimal r
  | String "+"%char r => parse_decimal r
  | t => parse_decimal t
  end.

(** [safe_int]: [int(value)], [None] on any exception. *)
Definition safe_int (value : json) : option Z :=
  match value with
  | JNum z => Some z
  | JBool b => Some (if b then 1 else 0)
  | JStr s => int_of_str s
  | _ => None
  end.

(** [split_name] on a string (the caller's [or ""] has been applied). *)
Definition split_name_str (full_name : string) : string * string :=
  match py_split (py_strip full_name) with
  | [] => (EmptyString, EmptyString)
  | [p] => (p, EmptyString)
  | p :: rest => (p, default EmptyString (last rest))
  end.

(** [split_name(full_name)]: [(full_name or "").strip()] needs a string. *)
Definition split_name (full_name : json) : result (string * string) :=
  match py_or full_name (JStr "") with
  | JStr s => Ok (split_name_str s)
  | _ => Raise AttributeError
  end.

(** [parse_id_from_ref]: the last path segment, up to a [?], as an integer. *)
Definition parse_id_from_ref (ref : json) : option Z :=
  if negb (truthy ref) then None
  else match ref with
       | JStr s =>
           let seg := default EmptyString (last (split_on "/"%char (rstrip_by (Ascii.eqb "/"%char) s))) in
           int_of_str (default EmptyString (head (split_on "?"%char seg)))
       | _ => None
       end.

Definition conf_div_table : list (string * (string * string)) :=
  [ ("BUF", ("AFC", "E")); ("MIA", ("AFC", "E")); ("NE", ("AFC", "E")); ("NYJ", ("AFC", "E"));
    ("BAL", ("AFC", "N")); ("CIN", ("AFC", "N")); ("CLE", ("AFC", "N")); ("PIT", ("AFC", "N"));
    ("HOU", ("AFC", "S")); ("IND", ("AFC", "S")); ("JAX", ("AFC", "S")); ("TEN", ("AFC", "S"));
    ("DEN", ("AFC", "W")); ("KC", ("AFC", "W")); ("LAC", ("AFC", "W")); ("LV", ("AFC", "W"));
    ("DAL", ("NFC", "E")); ("NYG", ("NFC", "E")); ("PHI", ("NFC", "E")); ("WAS", ("NFC", "E"));
    ("WSH", ("NFC", "E"));
    ("CHI", ("NFC", "N")); ("DET", ("NFC", "N")); ("GB", ("NFC", "N")); ("MIN", ("NFC", "N"));
    ("ATL", ("NFC", "S")); ("CAR", ("NFC", "S")); ("NO", ("NFC", "S")); ("TB", ("NFC", "S"));
    ("ARI", ("NFC", "W")); ("LAR", ("NFC", "W")); ("LA", ("NFC", "W")); ("SF", ("NFC", "W"));
    ("SEA", ("NFC", "W")) ].

Fixpoint table_get {A} (k : string) (t : list (string * A)) : option A :=
  match t with
  | [] => None
  | (k', v) :: rest => if String.eqb k k' then Some v else table_get k rest
  end.

(** [conf_div_from_abbr] *)
Definition conf_div_from_abbr (abbr : string) : string * string :=
  default (EmptyString, EmptyString) (table_get (py_upper abbr) conf_div_table).

(* ===================================================================== *)
(** ** Effects: printed lines, GET requests, uncaught exceptions *)
(* ===================================================================== *)

(** What [info] is called with. *)
Inductive info_msg : Type :=
  | LoadingSeason (season : Z)
  | FetchedTeams
  | RosterFetching (tid : Z) (idx total : nat)
  | BuiltRoster (n : nat)
  | WeekFetching (week : Z)
  | NoEventsFound
  | WeekFound (week : Z) (n : nat)
  | StatsProcessing (event_id : Z)
  | StatsRowsBuilt (processed : nat)
  | Pruned (before after : nat)
  | RowCounts (team player coach game game_stats : nat)
  | Done.

Inductive event : Type :=
  | Get (url : string)              (* requests.get(url) *)
  | Warn (url : json)               (* [warn] fetch failed url *)
  | Info (msg : info_msg)           (* [info] msg *)
  | Wrote (name : string) (rows : nat). (* a CSV file written *)

(** A computation that emits events of type [E] and returns or raises. *)
Definition M (E A : Type) : Type := list E * result A.

#[global] Instance M_ret {E} : MRet (M E) := fun A a => ([], Ok a).
#[global] Instance M_bind {E} : MBind (M E) := fun A B f m =>
  match m with
  | (l, Ok a) => let '(l', r) := f a in (l ++ l', r)
  | (l, Raise e) => (l, Raise e)
  end.
#[global] Instance M_fmap {E} : FMap (M E) := fun A B f m => (fst m, f <$> snd m).

Definition lift {E A} (r : result A) : M E A := ([], r).
Definition raise {E A} (e : exn) : M E A := ([], Raise e).
Definition say {E} (e : E) : M E unit := ([e], Ok tt).

(** What a run printed and requested, and how it ended. *)
Definition trace {E A} (m : M E A) : list E := fst m.
Definition outcome {E A} (m : M E A) : result A := snd m.

(** [for x in xs: body], with the loop-carried variables as [s]; the body
    says whether the loop goes on ([continue], or falling off the end) or
    stops ([break]). *)
Inductive ctl : Type := Next | Break.

Fixpoint for_each {E A S} (body : A -> S -> M E (ctl * S)) (xs : list A) (s : S) : M E S :=
  match xs with
  | [] => mret s
  | x :: rest =>
      r ← body x s;
      match r with
      | (Break, s') => mret s'
      | (Next, s') => for_each body rest s'
      end
  end.

(** The same loop over a Python iterable. *)
Definition for_in {E S} (v : json) (body : json -> S -> M E (ctl * S)) (s : S) : M E S :=
  xs ← lift (py_iter v); for_each body xs s.

Definition go_on {E S} (s : S) : M E (ctl * S) := mret (Next, s).
Definition stop {E S} (s : S) : M E (ctl * S) := mret (Break, s).

(** A string is needed where a [str] method is called on the value. *)
Definition as_str (v : json) : result string :=
  match v with
  | JStr s => Ok s
  | _ => Raise AttributeError
  end.

(** [len(v)] *)
Definition py_len (v : json) : result nat :=
  match v with
  | JStr s => Ok (String.length s)
  | JArr l => Ok (length l)
  | JObj kv => Ok (length kv)
  | _ => Raise TypeError
  end.

(** The extractor's computations. *)
Abbreviation IO := (M event).

Definition info (msg : info_msg) : IO unit := say (Info msg).

(** The remote service: the body of a successful GET that parses as JSON,
    or nothing (connection error, error status, body that is not JSON). *)
Definition world : Type := string -> option json.

Definition ESPN_SITE : string := "https://site.api.espn.com/apis".
Definition ESPN_CORE : string := "http://sports.core.api.espn.com/v2/sports/football/leagues/nfl".

(* ===================================================================== *)
(** ** Output rows *)
(* ===================================================================== *)

(** A team id as [teams["TeamID"].dropna().tolist()] hands it on: the column
    holds integers, or floats once one of its cells is missing.  A float is
    kept as the integer it stands for, which is exact up to 2^53; beyond
    that pandas rounds the id and Python prints it with an exponent, and
    the model does not follow. *)
Inductive team_key : Type :=
  | TInt (z : Z)
  | TFloat (z : Z).

Definition team_key_int (t : team_key) : Z := match t with TInt z | TFloat z => z end.

(** [f"{tid}"] *)
Definition team_key_str (t : team_key) : string :=
  match t with
  | TInt z => pretty z
  | TFloat z => pretty z +:+ ".0"
  end.

Record team_row : Type := {
  TeamID : option Z;
  TeamName : json;
  City : string;
  Conference : string;
  Division : string }.

Record player_row : Type := {
  PlayerID : option Z;
  Fname : string;
  Lname : string;
  Position : string;
  PlayerTeamID : Z }.

Record coach_row : Type := {
  CoachID : option Z;
  LName : json;
  FName : json;
  CoachTeamID : team_key;
  Role : string }.

Record game_row : Type := {
  GameID : option Z;
  GameDate : string;
  Week : Z;
  HomeTeamID : option Z;
  AwayTeamID : option Z;
  HomeTeamScore : option Z;
  AwayTeamScore : option Z }.

Record stats_row : Type := {
  StatGameID : option Z;
  StatPlayerID : option Z;
  Pass_yrd : json;
  Rush_yrd : json;
  Rec_yrd : json;
  Touchdowns : json;
  Tackles : json;
  Interceptions : json }.

(** An entry of [stats_meta]. *)
Record meta_entry : Type := {
  event_id : option Z;
  competition_id : option Z;
  competitors : list json;
  status_ref : json }.

(** [df.drop_duplicates(subset=[key])]: the first row of each key stays. *)
Fixpoint drop_duplicates_from {A} (key : A -> option Z) (seen : gset (option Z)) (rows : list A) : list A :=
  match rows with
  | [] => []
  | r :: rest =>
      if decide (key r ∈ seen) then drop_duplicates_from key seen rest
      else r :: drop_duplicates_from key ({[ key r ]} ∪ seen) rest
  end.

Definition drop_duplicates {A} (key : A -> option Z) (rows : list A) : list A :=
  drop_duplicates_from key ∅ rows.

Section Extractor.

Context (net : world).

(** [fetch_json]: the parsed body, or [None] with a warning printed. *)
Definition fetch_json (url : json) : IO json :=
  match url with
  | JStr u =>
      match net u with
      | Some body => ([Get u], Ok body)
      | None => ([Get u; Warn url], Ok JNull)
      end
  | _ => ([Warn url], Ok JNull)
  end.

(** [fetch_json(ref) if ref else None] *)
Definition fetch_if (ref : json) : IO json :=
  if truthy ref then fetch_json ref else mret JNull.

(* --------------------------------------------------------------------- *)
(** *** Teams *)

Definition teams_url : string := ESPN_SITE +:+ "/site/v2/sports/football/nfl/teams".

(** The dict appended for one [entry] of a league's teams. *)
Definition team_row_of (entry : json) : result team_row :=
  team ← py_get_default entry "team" (JObj []);
  a ← py_get team "abbreviation";
  abbr ← py_upper <$> as_str (py_or a (JStr ""));
  let '(conference, division) := conf_div_from_abbr abbr in
  id ← py_get team "id";
  short ← py_get team "shortDisplayName";
  display ← py_get team "displayName";
  name ← py_get team "name";
  team_name ← py_slice_to 15 (py_or short (py_or display (py_or name (JStr ""))));
  location ← py_get team "location";
  loc ← as_str (py_or location (py_or display (JStr "")));
  city ← match py_split loc with
         | [] => Raise IndexError
         | first :: _ => Ok (str_take 15 first)
         end;
  Ok {| TeamID := safe_int id; TeamName := team_name; City := city;
          Conference := conference; Division := division |}.

Definition load_teams : IO (list team_row) :=
  data ← fetch_json (JStr teams_url);
  if negb (truthy data) then raise (RuntimeError "Could not fetch teams")
  else
    _ ← info FetchedTeams;
    sports ← lift (py_get_default data "sports" (JArr []));
    for_in sports (fun sport teams =>
      leagues ← lift (py_get_default sport "leagues" (JArr []));
      teams ← for_in leagues (fun league teams =>
        entries ← lift (py_get_default league "teams" (JArr []));
        teams ← for_in entries (fun entry teams =>
          row ← lift (team_row_of entry);
          go_on (teams ++ [row])) teams;
        go_on teams) teams;
      go_on teams) [].

(* --------------------------------------------------------------------- *)
(** *** Rosters *)

Definition roster_url (team_id : Z) : string :=
  ESPN_SITE +:+ "/common/v3/sports/football/nfl/teams/" +:+ pretty team_id +:+ "/roster".

(** One athlete of a position group: skipped without a usable id. *)
Definition roster_player (team_id : Z) (player : json) (players : list player_row)
  : result (ctl * list player_row) :=
  id ← py_get player "id";
  let pid := safe_int id in
  if negb (truthy_int pid) then Ok (Next, players)
  else
    full ← py_get player "fullName";
    display ← py_get player "displayName";
    let full_name := py_or full (py_or display (JStr "")) in
    p ← py_get player "position";
    let pos := py_or p (JObj []) in
    position ← match pos with
               | JObj _ => py_get pos "abbreviation"
               | _ => Ok pos
               end;
    names ← split_name full_name;
    position ← py_upper <$> as_str (py_or position (JStr ""));
    Ok (Next, players ++ [ {| PlayerID := pid;
                              Fname := str_take 15 (fst names);
                              Lname := str_take 15 (snd names);
                              Position := str_take 4 position;
                              PlayerTeamID := team_id |} ]).

Definition load_roster (team_id : Z) : IO (list player_row) :=
  data ← fetch_json (JStr (roster_url team_id));
  if negb (truthy data) then mret []
  else
    groups ← lift (py_get_default data "positionGroups" (JArr []));
    for_in groups (fun group players =>
      athletes ← lift (py_get_default group "athletes" (JArr []));
      players ← for_in athletes (fun player players => lift (roster_player team_id player players)) players;
      go_on players) [].

(** The rows of all rosters, in order, before deduplication. *)
Definition load_all_rosters (team_ids : list team_key) : IO (list player_row) :=
  let total := length team_ids in
  snd <$> for_each (fun tid '(idx, rows) =>
      _ ← info (RosterFetching (team_key_int tid) idx total);
      roster ← load_roster (team_key_int tid);
      go_on (S idx, rows ++ roster)) team_ids (1%nat, []).

Definition load_all_players (team_ids : list team_key) : IO (list player_row) :=
  rows ← load_all_rosters team_ids;
  let df := drop_duplicates PlayerID rows in
  _ ← info (BuiltRoster (length df));
  mret df.

(* --------------------------------------------------------------------- *)
(** *** Coaches *)

Definition coach_list_url (season : Z) (tid : team_key) : string :=
  ESPN_CORE +:+ "/seasons/" +:+ pretty season +:+ "/teams/" +:+ team_key_str tid +:+ "/coaches".

(** One item of a team's coach listing: the first one whose detail can be
    fetched gives the team's row and ends the loop. *)
Definition coach_item (tid : team_key) (item : json) (rows : list coach_row)
  : IO (ctl * list coach_row) :=
  coach_ref ← lift (py_get item "$ref");
  coach_data ← fetch_if coach_ref;
  if negb (truthy coach_data) then go_on rows
  else
    id ← lift (py_get coach_data "id");
    first ← lift (py_get coach_data "firstName");
    fname ← lift (py_slice_to 15 (py_or first (JStr "")));
    surname ← lift (py_get coach_data "lastName");
    lname ← lift (py_slice_to 15 (py_or surname (JStr "")));
    stop (rows ++ [ {| CoachID := safe_int id; LName := lname; FName := fname;
                       CoachTeamID := tid; Role := "Head Coach" |} ]).

Definition load_coaches (team_ids : list team_key) (season : Z) : IO (list coach_row) :=
  for_each (fun tid rows =>
      listing ← fetch_json (JStr (coach_list_url season tid));
      if negb (truthy listing) then go_on rows
      else
        items ← lift (py_get_default listing "items" (JArr []));
        rows ← for_in items (coach_item tid) rows;
        go_on rows) team_ids [].

(* --------------------------------------------------------------------- *)
(** *** Schedule *)

Definition fetch_score (score_ref : json) : IO (option Z) :=
  match score_ref with
  | JObj (_ :: _) =>
      ref ← lift (py_get score_ref "$ref");
      score_data ← fetch_if ref;
      if truthy score_data then
        value ← lift (py_get score_data "value");
        mret (safe_int value)
      else mret None
  | _ => mret None
  end.

(** [next((c for c in competitors if c.get("homeAway") == side), None)] *)
Fixpoint find_side (side : string) (competitors : list json) : result json :=
  match competitors with
  | [] => Ok JNull
  | c :: rest =>
      h ← py_get c "homeAway";
      if py_eq_str h side then Ok c else find_side side rest
  end.

(** [v[0]] for a non-empty [v] *)
Definition py_first (v : json) : result json :=
  match v with
  | JArr (x :: _) => Ok x
  | JArr [] => Raise IndexError
  | JStr (String c _) => Ok (JStr (String c EmptyString))
  | JStr EmptyString => Raise IndexError
  | JObj _ => Raise KeyError
  | _ => Raise TypeError
  end.

Definition week_url (season week : Z) : string :=
  ESPN_CORE +:+ "/seasons/" +:+ pretty season +:+ "/types/2/weeks/" +:+ pretty week +:+ "/events".

(** [a or week] where [week] is a positive integer *)
Definition or_week (a : option Z) (week : Z) : Z :=
  match a with
  | Some z => if z =? 0 then week else z
  | None => week
  end.

(** One item of a week's listing. *)
Definition game_event (week : Z) (item : json) (s : list game_row * list meta_entry)
  : IO (ctl * (list game_row * list meta_entry)) :=
  ref ← lift (py_get item "$ref");
  event ← fetch_json ref;
  if negb (truthy event) then go_on s
  else
    id ← lift (py_get event "id");
    let eid := safe_int id in
    cs ← lift (py_get event "competitions");
    let competitions := py_or cs (JArr []) in
    comp ← lift (if truthy competitions then py_first competitions else Ok (JObj []));
    cid ← lift (py_get comp "id");
    let comp_id := or_int (safe_int cid) eid in
    cps ← lift (py_get comp "competitors");
    let competitors := py_or cps (JArr []) in
    home ← lift (py_iter competitors ≫= find_side "home");
    away ← lift (py_iter competitors ≫= find_side "away");
    if negb (truthy home) || negb (truthy away) then go_on s
    else
      hid ← lift (py_get home "id");
      aid ← lift (py_get away "id");
      hsc ← lift (py_get home "score");
      home_score ← fetch_score hsc;
      asc ← lift (py_get away "score");
      away_score ← fetch_score asc;
      cdate ← lift (py_get comp "date");
      edate ← lift (py_get event "date");
      let game_date := py_or cdate edate in
      wk ← lift (py_get event "week");
      let week_num := or_week (parse_id_from_ref wk) week in
      date ← lift (as_str (py_or game_date (JStr "")));
      status ← lift (py_get comp "status");
      sref ← lift (py_get (py_or status (JObj [])) "$ref");
      go_on (s.1 ++ [ {| GameID := eid;
                         GameDate := default EmptyString (head (split_on "T"%char date));
                         Week := week_num;
                         HomeTeamID := safe_int hid;
                         AwayTeamID := safe_int aid;
                         HomeTeamScore := home_score;
                         AwayTeamScore := away_score |} ],
             s.2 ++ [ {| event_id := eid;
                         competition_id := comp_id;
                         competitors := [home; away];
                         status_ref := sref |} ]).

(** One turn of the week loop. *)
Definition scan_week (season : Z) (week : Z) (s : list game_row * list meta_entry)
  : IO (ctl * (list game_row * list meta_entry)) :=
  _ ← info (WeekFetching week);
  week_data ← fetch_json (JStr (week_url season week));
  if negb (truthy week_data) then _ ← info NoEventsFound; stop s
  else
    items ← lift (py_get week_data "items");
    if negb (truthy items) then _ ← info NoEventsFound; stop s
    else
      n ← lift (py_len items);
      _ ← info (WeekFound week n);
      s ← for_in items (game_event week) s;
      go_on s.

(** [range(1, max_weeks + 1)] *)
Definition weeks (max_weeks : Z) : list Z := seqZ 1 max_weeks.

Definition load_games (season : Z) (max_weeks : Z) : IO (list game_row * list meta_entry) :=
  for_each (scan_week season) (weeks max_weeks) ([], []).

(* --------------------------------------------------------------------- *)
(** *** Game statistics *)

(** The dict [values] of [stats_lookup], newest binding first. *)
Definition stat_values : Type := list (string * json).

(** A dict key has to be hashable; only a string key is ever looked up. *)
Definition set_value (name value : json) (values : stat_values) : result stat_values :=
  match name with
  | JArr _ | JObj _ => Raise TypeError
  | JStr k => Ok ((k, value) :: values)
  | _ => Ok values
  end.

Definition stats_lookup (stats_obj : json) : IO stat_values :=
  splits ← lift (py_get_default stats_obj "splits" (JObj []));
  categories ← lift (py_get_default splits "categories" (JArr []));
  for_in categories (fun cat values =>
    stats ← lift (py_get_default cat "stats" (JArr []));
    values ← for_in stats (fun stat values =>
      name ← lift (py_get stat "name");
      value ← lift (py_get stat "value");
      values ← lift (set_value name value values);
      go_on values) values;
    go_on values) [].

(** [lookup.get(k)] *)
Definition value_of (lookup : stat_values) (k : string) : json := default JNull (assoc k lookup).

(** [a + b] *)
Definition py_add (a b : json) : result json :=
  match a, b with
  | JNum x, JNum y => Ok (JNum (x + y))
  | JNum x, JBool y => Ok (JNum (x + (if y then 1 else 0)))
  | JBool x, JNum y => Ok (JNum ((if x then 1 else 0) + y))
  | JBool x, JBool y => Ok (JNum ((if x then 1 else 0) + (if y then 1 else 0)))
  | JStr x, JStr y => Ok (JStr (x +:+ y))
  | JArr x, JArr y => Ok (JArr (x ++ y))
  | _, _ => Raise TypeError
  end.

Definition stats_url (eid cid team_id : Z) : string :=
  ESPN_CORE +:+ "/events/" +:+ pretty eid +:+ "/competitions/" +:+ pretty cid
    +:+ "/competitors/" +:+ pretty team_id +:+ "/statistics/0".

(** The loop-carried variables of [load_game_stats]: [rows], [processed]. *)
Definition stats_acc : Type := list stats_row * nat.

(** One athlete entry of a boxscore category. *)
Definition athlete_ref_of (ath : json) (refs : list (option Z * json))
  : result (ctl * list (option Z * json)) :=
  st ← py_get ath "statistics";
  stat_ref ← py_get (py_or st (JObj [])) "$ref";
  a ← py_get ath "athlete";
  athlete_ref ← py_get (py_or a (JObj [])) "$ref";
  let athlete_id := parse_id_from_ref athlete_ref in
  if truthy stat_ref && truthy_int athlete_id then Ok (Next, refs ++ [(athlete_id, stat_ref)])
  else Ok (Next, refs).

(** One turn of the loop over [athlete_refs]; [seen] is carried along. *)
Definition stats_athlete (entry : meta_entry) (ar : option Z * json)
    (s : gset (option Z * option Z) * stats_acc)
  : IO (ctl * (gset (option Z * option Z) * stats_acc)) :=
  let '(athlete_id, stat_ref) := ar in
  let '(seen, (rows, processed)) := s in
  if decide ((event_id entry, athlete_id) ∈ seen) then go_on s
  else
    let seen := {[ (event_id entry, athlete_id) ]} ∪ seen in
    detail ← fetch_json stat_ref;
    if negb (truthy detail) then go_on (seen, (rows, processed))
    else
      lookup ← stats_lookup detail;
      let pass_yrd := py_or (value_of lookup "passingYards")
                        (py_or (value_of lookup "netPassingYards") (JNum 0)) in
      let rush_yrd := py_or (value_of lookup "rushingYards") (JNum 0) in
      let rec_yrd := py_or (value_of lookup "receivingYards") (JNum 0) in
      td ← lift (py_add (py_or (value_of lookup "passingTouchdowns") (JNum 0))
                        (py_or (value_of lookup "rushingTouchdowns") (JNum 0))
                 ≫= fun t => py_add t (py_or (value_of lookup "receivingTouchdowns") (JNum 0)));
      let tackles := py_or (value_of lookup "totalTackles")
                       (py_or (value_of lookup "tackles") (JNum 0)) in
      let interceptions := py_or (value_of lookup "interceptions") (JNum 0) in
      let rows := rows ++ [ {| StatGameID := event_id entry; StatPlayerID := athlete_id;
                               Pass_yrd := pass_yrd; Rush_yrd := rush_yrd; Rec_yrd := rec_yrd;
                               Touchdowns := td; Tackles := tackles;
                               Interceptions := interceptions |} ] in
      let processed := S processed in
      _ ← (if (processed mod 50 =? 0)%nat then info (StatsRowsBuilt processed) else mret tt);
      go_on (seen, (rows, processed)).

(** One competitor of an entry: its boxscore, then its athletes. *)
Definition stats_competitor (entry : meta_entry) (comp : json) (s : stats_acc)
  : IO (ctl * stats_acc) :=
  id ← lift (py_get comp "id");
  let team_id := safe_int id in
  if negb (truthy_int team_id) then go_on s
  else
    stat_block ← fetch_json (JStr (stats_url (default 0 (event_id entry))
                                             (default 0 (competition_id entry))
                                             (default 0 team_id)));
    if negb (truthy stat_block) then go_on s
    else
      splits ← lift (py_get_default stat_block "splits" (JObj []));
      categories ← lift (py_get_default splits "categories" (JArr []));
      athlete_refs ← for_in categories (fun cat refs =>
        athletes ← lift (py_get_default cat "athletes" (JArr []));
        refs ← for_in athletes (fun ath refs => lift (athlete_ref_of ath refs)) refs;
        go_on refs) [];
      r ← for_each (stats_athlete entry) athlete_refs (∅, s);
      go_on r.2.

(** [status and status.get("type", {}).get("state") != "post"] *)
Definition not_finished (status : json) : result bool :=
  if truthy status then
    type ← py_get_default status "type" (JObj []);
    state ← py_get type "state";
    Ok (negb (py_eq_str state "post"))
  else Ok false.

(** What is done for an entry that passed the status check. *)
Definition process_entry (entry : meta_entry) (s : stats_acc) : IO (ctl * stats_acc) :=
  _ ← info (StatsProcessing (default 0 (event_id entry)));
  s ← for_each (stats_competitor entry) (competitors entry) s;
  go_on s.

(** One turn of the loop over [meta]. *)
Definition stats_entry (entry : meta_entry) (s : stats_acc) : IO (ctl * stats_acc) :=
  if negb (truthy_int (event_id entry)) || negb (truthy_int (competition_id entry)) then go_on s
  else
    status ← fetch_if (status_ref entry);
    lift (not_finished status) ≫= fun skip : bool =>
    if skip then go_on s
    else process_entry entry s.

Definition load_game_stats (meta : list meta_entry) : IO (list stats_row) :=
  fst <$> for_each stats_entry meta ([], 0%nat).

(* --------------------------------------------------------------------- *)
(** *** The run *)

Record args : Type := {
  season : option Z;
  save : bool;
  skip_game_stats : bool;
  max_weeks : Z }.

Record frames : Type := {
  TEAM : list team_row;
  PLAYER : list player_row;
  COACH : list coach_row;
  GAME : list game_row;
  GAME_STATS : list stats_row }.

(** [teams["TeamID"].dropna().tolist()] *)
Definition team_id_list (teams : list team_row) : list team_key :=
  let ids := omap TeamID teams in
  if forallb (fun t => bool_decide (is_Some (TeamID t))) teams then TInt <$> ids
  else TFloat <$> ids.

(** [players[players["PlayerID"].isin(used_ids)]] *)
Definition prune_players (players : list player_row) (game_stats : list stats_row) : list player_row :=
  let used_ids : gset (option Z) := list_to_set (StatPlayerID <$> game_stats) in
  filter (fun p => PlayerID p ∈ used_ids) players.

Definition save_frames (f : frames) : IO unit :=
  _ ← say (Wrote "TEAM" (length (TEAM f)));
  _ ← say (Wrote "PLAYER" (length (PLAYER f)));
  _ ← say (Wrote "COACH" (length (COACH f)));
  _ ← say (Wrote "GAME" (length (GAME f)));
  say (Wrote "GAME_STATS" (length (GAME_STATS f))).

(** [this_year] is [datetime.now().year]. *)
Definition main (this_year : Z) (a : args) : IO frames :=
  let season := or_week (season a) this_year in
  _ ← info (LoadingSeason season);
  teams ← load_teams;
  players ← load_all_players (team_id_list teams);
  coaches ← load_coaches (team_id_list teams) season;
  g ← load_games season (max_weeks a);
  game_stats ← (if skip_game_stats a then mret [] else load_game_stats g.2);
  players ← match game_stats with
            | [] => mret players
            | _ =>
                let pruned := prune_players players game_stats in
                _ ← info (Pruned (length players) (length pruned));
                mret pruned
            end;
  let f := {| TEAM := teams; PLAYER := players; COACH := coaches; GAME := g.1;
              GAME_STATS := game_stats |} in
  _ ← (if save a then save_frames f else mret tt);
  _ ← info (RowCounts (length teams) (length players) (length coaches) (length g.1)
                      (length game_stats));
  _ ← info Done;
  mret f.

End Extractor.





(* ===================================================================== *)
(** ** The loader (load_csv_to_oracle.py) *)
(* ===================================================================== *)

Module Loader.

(** A cell of a data frame or of a bound tuple: [None], a number, a string,
    a datetime (kept as text). *)
Inductive cell : Type :=
  | CNone
  | CNum (z : Z)
  | CStr (s : string)
  | CTime (s : string).

#[global] Instance cell_eq_dec : EqDecision cell.
Proof. solve_decision. Defined.

#[global] Instance cell_countable : Countable cell.
Proof.
  refine (inj_countable'
    (fun c => match c with
              | CNone => inl ()
              | CNum z => inr (inl z)
              | CStr s => inr (inr (inl s))
              | CTime s => inr (inr (inr s))
              end)
    (fun x => match x with
              | inl _ => CNone
              | inr (inl z) => CNum z
              | inr (inr (inl s)) => CStr s
              | inr (inr (inr s)) => CTime s
              end) _).
  intros []; reflexivity.
Defined.

Definition row : Type := list cell.

(** What [pd.read_csv] returns: the header and the data rows, a cell that
    is blank or missing being [CNone]. *)
Record dataframe : Type := {
  df_columns : list string;
  df_rows : list row }.

Inductive load_msg : Type :=
  | LoadFrom (table path : string)
  | Skipped (n : nat)
  | Inserted (table : string) (n : nat)
  | AllDone.

(** What the run prints and what it asks of the database. *)
Inductive db_event : Type :=
  | Print (m : load_msg)
  | Truncate (table : string)
  | ExecuteMany (table : string) (columns : list string) (rows : list row)
  | Commit.

Abbreviation DB := (M db_event).

Definition TABLE_ORDER : list (string * list string) :=
  [ ("TEAM", ["TeamID"; "TeamName"; "City"; "Conference"; "Division"]);
    ("PLAYER", ["PlayerID"; "Fname"; "Lname"; "Position"; "TeamID"]);
    ("COACH", ["CoachID"; "LName"; "FName"; "TeamID"; "Role"]);
    ("GAME", ["GameID"; "GameDate"; "Week"; "HomeTeamID"; "AwayTeamID"; "HomeTeamScore";
              "AwayTeamScore"]);
    ("GAME_STATS", ["GameID"; "PlayerID"; "Pass_yrd"; "Rush_yrd"; "Rec_yrd"; "Touchdowns";
                    "Tackles"; "Interceptions"]) ].

Fixpoint column_index (col : string) (columns : list string) : option nat :=
  match columns with
  | [] => None
  | c :: rest => if String.eqb col c then Some 0%nat else S <$> column_index col rest
  end.

(** [row[col]] *)
Definition cell_at (columns : list string) (r : row) (col : string) : cell :=
  match column_index col columns with
  | Some i => default CNone (r !! i)
  | None => CNone
  end.

(** [r[i]] on a tuple *)
Definition row_cell (r : row) (i : nat) : result cell :=
  match r !! i with
  | Some c => Ok c
  | None => Raise IndexError
  end.

(** [os.path.join(csv_dir, name)] *)
Definition path_join (dir name : string) : string :=
  match String.rev dir with
  | EmptyString => name
  | String "/"%char _ => dir +:+ name
  | _ => dir +:+ "/" +:+ name
  end.

Record args : Type := {
  user : option string;
  password : option string;
  dsn : option string;
  csv_dir : string;
  truncate : bool }.

Record environ : Type := {
  ORACLE_USER : option string;
  ORACLE_PASSWORD : option string;
  ORACLE_DSN : option string }.

Definition truthy_str (o : option string) : bool :=
  match o with
  | Some s => negb (String.eqb s "")
  | None => false
  end.

(** [flag or os.getenv(name)] *)
Definition or_env (flag env : option string) : option string :=
  if truthy_str flag then flag else env.

(** [{r[0] for r in rows if r and r[0] is not None}] *)
Definition key_set (rows : list row) : gset cell :=
  list_to_set (omap (fun r => match r with
                              | CNone :: _ | [] => None
                              | c :: _ => Some c
                              end) rows).

Section Run.

(** The CSV files by path, and [pd.to_datetime(_, errors="coerce")] on a
    cell, with [CNone] for what does not parse.  The conversion is taken to
    succeed, as the database calls are: a column on which pandas raises
    (time zones that differ from cell to cell) is outside the model.  Of
    the message of the [ValueError] only the path is kept. *)
Context (files : string -> option dataframe) (to_datetime : cell -> cell) (env : environ).

Definition load_csv (csv_path : string) (columns : list string) : result (list row) :=
  match files csv_path with
  | None => Raise FileNotFoundError
  | Some df =>
      match filter (fun c => c ∉ df_columns df) columns with
      | _ :: _ => Raise (ValueError csv_path)
      | [] =>
          Ok ((fun r => (fun col =>
                  let val := cell_at (df_columns df) r col in
                  if String.eqb col "GameDate" then to_datetime val else val) <$> columns)
              <$> df_rows df)
      end
  end.

Definition truncate_tables (tables : list string) : DB unit :=
  for_each (fun table (_ : unit) => _ ← say (Truncate table); go_on tt) tables tt.

Definition insert_rows (table : string) (columns : list string) (rows : list row) : DB unit :=
  match rows with
  | [] => mret tt
  | _ => say (ExecuteMany table columns rows)
  end.

(** One turn of the loop over the rows of GAME_STATS. *)
Definition keep_row (player_ids game_ids : gset cell) (r : row) (filtered : list row)
  : DB (ctl * list row) :=
  gid ← lift (row_cell r 0);
  pid ← lift (row_cell r 1);
  if decide (gid ∈ game_ids ∧ pid ∈ player_ids) then go_on (filtered ++ [r])
  else go_on filtered.

(** The rows of GAME_STATS whose game and player are both known. *)
Definition drop_orphans (player_ids game_ids : gset cell) (rows : list row) : DB (list row) :=
  for_each (keep_row player_ids game_ids) rows [].

(** One turn of the loop over [TABLE_ORDER]; [s] is [player_ids], [game_ids]. *)
Definition load_table (a : args) (t : string * list string) (s : gset cell * gset cell)
  : DB (ctl * (gset cell * gset cell)) :=
  let '(table, cols) := t in
  let csv_path := path_join (csv_dir a) (table +:+ ".csv") in
  _ ← say (Print (LoadFrom table csv_path));
  rows ← lift (load_csv csv_path cols);
  rows ← (if String.eqb table "GAME_STATS" then
            filtered ← drop_orphans s.1 s.2 rows;
            _ ← (if bool_decide (length filtered ≠ length rows)
                 then say (Print (Skipped (length rows - length filtered)))
                 else mret tt);
            mret filtered
          else mret rows);
  _ ← insert_rows table cols rows;
  _ ← say (Print (Inserted table (length rows)));
  let player_ids := if String.eqb table "PLAYER" then key_set rows else s.1 in
  let game_ids := if String.eqb table "GAME" then key_set rows else s.2 in
  go_on (player_ids, game_ids).

Definition main (a : args) : DB unit :=
  let user := or_env (user a) (ORACLE_USER env) in
  let password := or_env (password a) (ORACLE_PASSWORD env) in
  let dsn := or_env (dsn a) (ORACLE_DSN env) in
  if negb (truthy_str user) || negb (truthy_str password) || negb (truthy_str dsn)
  then raise (SystemExit "Missing credentials")
  else
    _ ← (if truncate a then
           _ ← truncate_tables (reverse (fst <$> TABLE_ORDER));
           say Commit
         else mret tt);
    _ ← for_each (load_table a) TABLE_ORDER (∅, ∅);
    _ ← say Commit;
    say (Print AllDone).

End Run.

(** The rows handed to [executemany] for a table in a run. *)
Definition inserted (table : string) (tr : list db_event) : list row :=
  concat (omap (fun e => match e with
                         | ExecuteMany t _ rows => if String.eqb t table then Some rows else None
                         | _ => None
                         end) tr).

End Loader.

(* ===================================================================== *)
(** ** Sample services, used to run the model *)
(* ===================================================================== *)

Module Sample.

Definition teams_body : json :=
  JObj [("sports", JArr [JObj [("leagues", JArr [JObj [("teams", JArr [
    JObj [("team", JObj [("id", JStr "12"); ("abbreviation", JStr "kc");
                         ("shortDisplayName", JStr "Chiefs");
                         ("location", JStr "Kansas City")])];
    JObj [("team", JObj [("id", JStr "25"); ("abbreviation", JStr "sf");
                         ("displayName", JStr "San Francisco 49ers")])] ])]])]])].

Definition roster_body : json :=
  JObj [("positionGroups", JArr [JObj [("athletes", JArr [
    JObj [("id", JStr "7"); ("fullName", JStr "Patrick Lavon Mahomes");
          ("position", JObj [("abbreviation", JStr "qb")])];
    JObj [("id", JStr "7"); ("fullName", JStr "Another Entry"); ("position", JStr "wr")];
    JObj [("id", JStr "n/a"); ("fullName", JStr "Nobody")] ])]])].

Definition coaches_body : json := JObj [("items", JArr [JObj [("$ref", JStr "coach/1")]])].

Definition coach_body : json :=
  JObj [("id", JStr "n/a"); ("firstName", JStr "Andy"); ("lastName", JStr "Reid")].

Definition event_body : json :=
  JObj [("id", JStr "401"); ("date", JStr "2025-09-07T17:00Z");
        ("competitions", JArr [JObj [
           ("id", JStr "401");
           ("competitors", JArr [
              JObj [("id", JStr "12"); ("homeAway", JStr "home");
                    ("score", JObj [("$ref", JStr "score/12")])];
              JObj [("id", JStr "25"); ("homeAway", JStr "away")] ]);
           ("status", JObj [("$ref", JStr "status/401")]) ]])].

(** An event whose id is not a number. *)
Definition odd_event_body : json :=
  JObj [("id", JStr "n/a");
        ("competitions", JArr [JObj [
           ("competitors", JArr [
              JObj [("id", JStr "12"); ("homeAway", JStr "home")];
              JObj [("id", JStr "25"); ("homeAway", JStr "away")] ]) ]])].

Definition boxscore_body : json :=
  JObj [("splits", JObj [("categories", JArr [JObj [("athletes", JArr [
    JObj [("athlete", JObj [("$ref", JStr "http://a/athletes/7?lang=en")]);
          ("statistics", JObj [("$ref", JStr "stats/7")])] ])]])])].

Definition athlete_stats_body : json :=
  JObj [("splits", JObj [("categories", JArr [JObj [("stats", JArr [
    JObj [("name", JStr "passingYards"); ("value", JNum 300)];
    JObj [("name", JStr "passingTouchdowns"); ("value", JNum 2)];
    JObj [("name", JStr "rushingTouchdowns"); ("value", JNum 1)] ])]])])].

Definition listing (refs : list string) : json :=
  JObj [("items", JArr ((fun r => JObj [("$ref", JStr r)]) <$> refs))].

Definition table (entries : list (string * json)) : world := fun u => assoc u entries.

(** Season 2025: one game in week 1, none listed for week 2, one for week 3;
    the game's status cannot be fetched. *)
Definition season_2025 : list (string * json) :=
  [ (teams_url, teams_body);
    (roster_url 12, roster_body);
    (coach_list_url 2025 (TInt 12), coaches_body);
    ("coach/1", coach_body);
    (week_url 2025 1, listing ["event/401"; "event/odd"]);
    (week_url 2025 2, listing []);
    (week_url 2025 3, listing ["event/401"]);
    ("event/401", event_body);
    ("event/odd", odd_event_body);
    ("score/12", JObj [("value", JNum 27)]);
    (stats_url 401 401 12, boxscore_body);
    ("stats/7", athlete_stats_body) ].

Definition net : world := table season_2025.

(** The same service with the listing of week 2 out of reach. *)
Definition net_week2_down : world :=
  fun u => if String.eqb u (week_url 2025 2) then None else net u.

(** The same service with a status for the game. *)
Definition net_with_status (state : string) : world :=
  fun u => if String.eqb u "status/401"
           then Some (JObj [("type", JObj [("state", JStr state)])])
           else net u.

(** Both sides of the game list athlete 7. *)
Definition net_both_sides : world :=
  fun u => if String.eqb u (stats_url 401 401 25) then Some boxscore_body else net u.

(** A team with neither a location nor a display name. *)
Definition net_bare_team : world :=
  table [ (teams_url,
           JObj [("sports", JArr [JObj [("leagues", JArr [JObj [("teams", JArr [
             JObj [("team", JObj [("id", JStr "12"); ("abbreviation", JStr "KC")])] ])]])]])]) ].

(** Only the team listing answers. *)
Definition net_teams_only : world := table [ (teams_url, teams_body) ].



(** Nothing answers. *)
Definition net_down : world := fun _ => None.

Definition run_args : args :=
  {| season := Some 2025; save := true; skip_game_stats := false; max_weeks := 18 |}.

Definition game_401 : meta_entry :=
  {| event_id := Some 401; competition_id := Some 401;
     competitors := [ JObj [("id", JStr "12"); ("homeAway", JStr "home")];
                      JObj [("id", JStr "25"); ("homeAway", JStr "away")] ];
     status_ref := JStr "status/401" |}.

End Sample.

(** The tables of the sample season. *)
Definition sample_frames : frames :=
  Eval vm_compute in
    match outcome (main Sample.net 2024 Sample.run_args) with
    | Ok f => f
    | Raise _ => {| TEAM := []; PLAYER := []; COACH := []; GAME := []; GAME_STATS := [] |}
    end.

(* ===================================================================== *)
(** ** Vocabulary of the statements *)
(* ===================================================================== *)

(** The loop with its way of ending made visible. *)
Fixpoint for_each_ctl {E A S} (body : A -> S -> M E (ctl * S)) (xs : list A) (s : S)
  : M E (ctl * S) :=
  match xs with
  | [] => mret (Next, s)
  | x :: rest =>
      r ← body x s;
      match r with
      | (Break, s') => mret (Break, s')
      | (Next, s') => for_each_ctl body rest s'
      end
  end.

(** The events of a remote call. *)
Definition net_event (e : event) : Prop :=
  match e with
  | Get _ | Warn _ => True
  | _ => False
  end.

(** The listing of a week gives nothing to scan: the call failed, or what
    came back is empty or has no items. *)
Definition week_is_empty (net : world) (season week : Z) : Prop :=
  match net (week_url season week) with
  | None => True
  | Some (JObj kv) => truthy (default JNull (assoc "items" kv)) = false
  | Some v => truthy v = false
  end.

(** The weeks queried, in the order of their queries. *)
Definition queried_weeks (tr : list event) : list Z :=
  omap (fun e => match e with Info (WeekFetching w) => Some w | _ => None end) tr.




(** A key is present and is not zero. *)
Definition proper_key (k : option Z) : Prop := exists z, k = Some z /\ z <> 0.


Definition player_fits (r : player_row) : Prop :=
  (String.length (Fname r) <= 15)%nat /\ (String.length (Lname r) <= 15)%nat
  /\ (String.length (Position r) <= 4)%nat.


(** What every roster row is built to satisfy. *)
Definition player_ok (r : player_row) : Prop := proper_key (PlayerID r) /\ player_fits r.

(** [r] is the first row of [rows] with its key. *)
Definition first_with_key {A} (key : A -> option Z) (rows : list A) (r : A) : Prop :=
  exists i, rows !! i = Some r /\ forall j x, (j < i)%nat -> rows !! j = Some x -> key x <> key r.

(** The PLAYER table of a run, from the roster rows and the statistics. *)
Definition player_table (rows : list player_row) (game_stats : list stats_row) : list player_row :=
  match game_stats with
  | [] => drop_duplicates PlayerID rows
  | _ => prune_players (drop_duplicates PlayerID rows) game_stats
  end.

Module LoaderSpec.
Import Loader.

(** A statistics row whose game and player are both among the known ids. *)
Definition has_parents (player_ids game_ids : gset cell) (r : row) : Prop :=
  match r with
  | gid :: pid :: _ => gid ∈ game_ids /\ pid ∈ player_ids
  | _ => False
  end.

#[global] Instance has_parents_dec player_ids game_ids r :
  Decision (has_parents player_ids game_ids r).
Proof. destruct r as [|gid [|pid rest]]; cbn; apply _. Defined.

Definition csv_path (a : args) (table : string) : string :=
  path_join (csv_dir a) (table +:+ ".csv").

(** The file of a table is there and has the table's columns. *)
Definition readable (files : string -> option dataframe) (a : args)
    (t : string * list string) : Prop :=
  exists df, files (csv_path a t.1) = Some df /\ Forall (fun c => c ∈ df_columns df) t.2.

(** The three credentials come from the flags or the environment. *)
Definition credentials_resolved (env : environ) (a : args) : Prop :=
  truthy_str (or_env (user a) (ORACLE_USER env)) = true
  /\ truthy_str (or_env (password a) (ORACLE_PASSWORD env)) = true
  /\ truthy_str (or_env (dsn a) (ORACLE_DSN env)) = true.

(** The tuples read from the file of a table. *)
Definition file_rows (files : string -> option dataframe) (to_datetime : cell -> cell)
    (a : args) (table : string) : list row :=
  match table_get table TABLE_ORDER with
  | Some cols =>
      match load_csv files to_datetime (csv_path a table) cols with
      | Ok rows => rows
      | Raise _ => []
      end
  | None => []
  end.

(** The rows a table's turn hands to the database. *)
Definition kept_rows (table : string) (s : gset cell * gset cell) (rows : list row) : list row :=
  if String.eqb table "GAME_STATS" then filter (has_parents s.1 s.2) rows else rows.

(** What a turn prints about the rows it left out. *)
Definition skip_lines (table : string) (rows kept : list row) : list db_event :=
  if String.eqb table "GAME_STATS" then
    if bool_decide (length kept <> length rows)
    then [Print (Skipped (length rows - length kept))] else []
  else [].

(** The state of the loop over the tables after the turn of a table. *)
Definition next_ids (table : string) (s : gset cell * gset cell) (rows : list row)
  : gset cell * gset cell :=
  (if String.eqb table "PLAYER" then key_set (kept_rows table s rows) else s.1,
   if String.eqb table "GAME" then key_set (kept_rows table s rows) else s.2).

(** A sample run: two players, two games, four statistics rows of which
    one names an unknown player and one an unknown game. *)
Definition sample_files : string -> option dataframe :=
  fun path =>
    if String.eqb path "data/TEAM.csv" then
      Some {| df_columns := ["TeamID"; "TeamName"; "City"; "Conference"; "Division"];
              df_rows := [[CNum 12; CStr "Chiefs"; CStr "Kansas"; CStr "AFC"; CStr "W"]] |}
    else if String.eqb path "data/PLAYER.csv" then
      Some {| df_columns := ["PlayerID"; "Fname"; "Lname"; "Position"; "TeamID"];
              df_rows := [[CNum 7; CStr "Patrick"; CStr "Mahomes"; CStr "QB"; CNum 12];
                          [CNum 8; CStr "Travis"; CStr "Kelce"; CStr "TE"; CNum 12]] |}
    else if String.eqb path "data/COACH.csv" then
      Some {| df_columns := ["CoachID"; "LName"; "FName"; "TeamID"; "Role"];
              df_rows := [] |}
    else if String.eqb path "data/GAME.csv" then
      Some {| df_columns := ["GameID"; "GameDate"; "Week"; "HomeTeamID"; "AwayTeamID";
                             "HomeTeamScore"; "AwayTeamScore"];
              df_rows := [[CNum 401; CStr "2025-09-07"; CNum 1; CNum 12; CNum 25; CNum 27; CNone];
                          [CNone; CNone; CNum 1; CNum 12; CNum 25; CNone; CNone]] |}
    else if String.eqb path "data/GAME_STATS.csv" then
      Some {| df_columns := ["GameID"; "PlayerID"; "Pass_yrd"; "Rush_yrd"; "Rec_yrd";
                             "Touchdowns"; "Tackles"; "Interceptions"];
              df_rows := [[CNum 401; CNum 7; CNum 300; CNum 0; CNum 0; CNum 3; CNum 0; CNum 0];
                          [CNum 401; CNum 9; CNum 0; CNum 0; CNum 0; CNum 0; CNum 4; CNum 0];
                          [CNum 402; CNum 7; CNum 100; CNum 0; CNum 0; CNum 0; CNum 0; CNum 0];
                          [CNone; CNum 8; CNum 0; CNum 0; CNum 50; CNum 0; CNum 0; CNum 0]] |}
    else None.

Definition sample_to_datetime (c : cell) : cell :=
  match c with
  | CStr s => CTime s
  | _ => CNone
  end.

Definition sample_env : environ :=
  {| ORACLE_USER := Some "scott"; ORACLE_PASSWORD := Some "tiger"; ORACLE_DSN := None |}.

Definition sample_args : args :=
  {| user := None; password := None; dsn := Some "localhost/orclpdb"; csv_dir := "data";
     truncate := true |}.

End LoaderSpec.

(* ===================================================================== *)
(** ** Vocabulary of further statements *)
(* ===================================================================== *)

(** The character [c] occurs in [s]. *)
Fixpoint str_has (c : ascii) (s : string) : bool :=
  match s with
  | EmptyString => false
  | String d r => Ascii.eqb d c || str_has c r
  end.

(** A GAME row and the entry kept for the statistics stage belong together:
    same event id, and the entry lists the competitor marked home, then the
    one marked away. *)
Definition game_matches (g : game_row) (m : meta_entry) : Prop :=
  GameID g = event_id m
  /\ exists home away,
       competitors m = [home; away]
       /\ py_get home "homeAway" = Ok (JStr "home")
       /\ py_get away "homeAway" = Ok (JStr "away").

(** What every GAME row is built to satisfy. *)
Definition game_ok (g : game_row) : Prop :=
  str_has "T" (GameDate g) = false /\ Week g <> 0.

(** A counter is 0 or a value Python takes as true: never null, never
    blank. *)
Definition counted (v : json) : Prop := v = JNum 0 \/ truthy v = true.

Definition counters_ok (r : stats_row) : Prop :=
  counted (Pass_yrd r) /\ counted (Rush_yrd r) /\ counted (Rec_yrd r)
  /\ counted (Touchdowns r) /\ counted (Tackles r) /\ counted (Interceptions r).

(** A statistics row of an entry of [meta], with both keys. *)
Definition stats_row_of (meta : list meta_entry) (r : stats_row) : Prop :=
  (exists e, e ∈ meta /\ StatGameID r = event_id e)
  /\ proper_key (StatGameID r) /\ proper_key (StatPlayerID r).

(** Every character of [s] passes [p]. *)
Fixpoint str_all (p : ascii -> bool) (s : string) : bool :=
  match s with
  | EmptyString => true
  | String c r => p c && str_all p r
  end.

(** A character of a decimal number, sign included. *)
Definition number_char (c : ascii) : bool := is_digit c || Ascii.eqb c "-".

(** A word: not empty, no blank in it. *)
Definition word (w : string) : Prop :=
  w <> EmptyString /\ str_all (fun c => negb (is_py_space c)) w = true.

(** [" ".join(ws)] *)
Fixpoint unwords (ws : list string) : string :=
  match ws with
  | [] => EmptyString
  | [w] => w
  | w :: rest => w +:+ " " +:+ unwords rest
  end.

(** The CSV files written, with their row counts, in the order written. *)
Definition written (tr : list event) : list (string * nat) :=
  omap (fun e => match e with Wrote name rows => Some (name, rows) | _ => None end) tr.

(** An event other than the writing of a file. *)
Definition quiet (e : event) : Prop :=
  match e with
  | Wrote _ _ => False
  | _ => True
  end.

(** The URLs requested, in the order of the requests. *)
Definition requests (tr : list event) : list string :=
  omap (fun e => match e with Get u => Some u | _ => None end) tr.

(** The schedule of the sample season. *)
Definition sample_schedule : list game_row * list meta_entry :=
  Eval vm_compute in
    match outcome (load_games Sample.net 2025 18) with
    | Ok g => g
    | Raise _ => ([], [])
    end.

Module LoaderTerms.
Import Loader LoaderSpec.

(** What the turn of a table may do: print, or hand a batch that is not
    empty to the database, for this table, with its columns, every tuple
    as wide as the column list. *)
Definition turn_event (t : string * list string) (e : db_event) : Prop :=
  match e with
  | Print _ => True
  | ExecuteMany table cols rows =>
      table = t.1 /\ cols = t.2 /\ rows <> [] /\ Forall (fun r => length r = length t.2) rows
  | Truncate _ | Commit => False
  end.

(** The tables that got a batch, in the order of the batches. *)
Definition inserted_tables (tr : list db_event) : list string :=
  omap (fun e => match e with ExecuteMany t _ _ => Some t | _ => None end) tr.

(** What a run does before the first table when asked to truncate. *)
Definition reset_events (a : args) : list db_event :=
  if truncate a then (Truncate <$> reverse (fst <$> TABLE_ORDER)) ++ [Commit] else [].

End LoaderTerms.

(* ===================================================================== *)
(** * Properties *)
(* ===================================================================== *)

(* ===================================================================== *)
(** ** The helpers on sample inputs *)
(* ===================================================================== *)

(** [int()] does not skip the separators that [str.strip()] takes off. *)
Example int_of_str_keeps_separators :
  int_of_str (String (ascii_of_nat 28) "7") = None
  /\ py_strip (String (ascii_of_nat 28) "7") = "7"
  /\ int_of_str (String (ascii_of_nat 9) "7") = Some 7.
Proof. repeat split; reflexivity. Qed.

Example int_of_str_examples :
  int_of_str " 12 " = Some 12 /\ int_of_str "-7" = Some (-7) /\ int_of_str "1_000" = Some 1000
  /\ int_of_str "12a" = None /\ int_of_str "" = None /\ int_of_str "_1" = None /\ int_of_str "1__0" = None.
Proof. repeat split; reflexivity. Qed.

Example parse_id_examples :
  parse_id_from_ref (JStr "http://x/athletes/4241/?lang=en") = None
  /\ parse_id_from_ref (JStr "http://x/athletes/4241?lang=en") = Some 4241
  /\ parse_id_from_ref (JStr "http://x/weeks/3/") = Some 3.
Proof. repeat split; reflexivity. Qed.

Example split_name_examples :
  split_name_str "  Patrick  Lavon Mahomes " = ("Patrick", "Mahomes")
  /\ split_name_str "Cher" = ("Cher", "") /\ split_name_str "  " = ("", "").
Proof. repeat split; reflexivity. Qed.

Example conf_div_examples :
  conf_div_from_abbr "KC" = ("AFC", "W") /\ conf_div_from_abbr "XXX" = ("", "").
Proof. split; reflexivity. Qed.

(* ===================================================================== *)
(** ** Facts about computations and loops *)
(* ===================================================================== *)

Section MonadFacts.

Context {E : Type}.

Lemma outcome_bind {A B} (m : M E A) (f : A -> M E B) :
  outcome (m ≫= f) = outcome m ≫= fun a => outcome (f a).
Proof.
  destruct m as [l [a|e]]; cbn; [|reflexivity].
  destruct (f a); reflexivity.
Qed.

Lemma trace_bind {A B} (m : M E A) (f : A -> M E B) :
  trace (m ≫= f) =
  trace m ++ match outcome m with Ok a => trace (f a) | Raise _ => [] end.
Proof.
  destruct m as [l [a|e]]; cbn; [|by rewrite app_nil_r].
  destruct (f a); reflexivity.
Qed.

Lemma outcome_fmap {A B} (g : A -> B) (m : M E A) : outcome (g <$> m) = g <$> outcome m.
Proof. reflexivity. Qed.

Lemma trace_fmap {A B} (g : A -> B) (m : M E A) : trace (g <$> m) = trace m.
Proof. reflexivity. Qed.

Lemma bind_ok_inv {A B} (m : M E A) (f : A -> M E B) b :
  outcome (m ≫= f) = Ok b -> exists a, outcome m = Ok a /\ outcome (f a) = Ok b.
Proof.
  rewrite outcome_bind. destruct (outcome m) as [a|e]; cbn; [eauto | discriminate].
Qed.

Lemma fmap_ok_inv {A B} (g : A -> B) (m : M E A) b :
  outcome (g <$> m) = Ok b -> exists a, outcome m = Ok a /\ b = g a.
Proof.
  rewrite outcome_fmap. destruct (outcome m) as [a|e]; cbn; [|discriminate].
  intros [= <-]. eauto.
Qed.

Lemma lift_ok_inv {A} (r : result A) a : outcome (lift (E:=E) r) = Ok a -> r = Ok a.
Proof. trivial. Qed.

Lemma Forall_trace_bind {A B} (Q : E -> Prop) (m : M E A) (f : A -> M E B) :
  Forall Q (trace m) ->
  (forall a, outcome m = Ok a -> Forall Q (trace (f a))) ->
  Forall Q (trace (m ≫= f)).
Proof.
  intros Hm Hf. rewrite trace_bind. apply Forall_app. split; [done|].
  destruct (outcome m); [by apply Hf | constructor].
Qed.

Lemma for_each_outcome {A S} (body : A -> S -> M E (ctl * S)) xs s :
  outcome (for_each body xs s) = snd <$> outcome (for_each_ctl body xs s).
Proof.
  revert s. induction xs as [|x xs IH]; intros s; [reflexivity|].
  cbn [for_each for_each_ctl]. rewrite !outcome_bind.
  destruct (outcome (body x s)) as [[[] s']|e]; cbn; auto.
Qed.

Lemma for_each_trace {A S} (body : A -> S -> M E (ctl * S)) xs s :
  trace (for_each body xs s) = trace (for_each_ctl body xs s).
Proof.
  revert s. induction xs as [|x xs IH]; intros s; [reflexivity|].
  cbn [for_each for_each_ctl]. rewrite !trace_bind.
  destruct (outcome (body x s)) as [[[] s']|e]; cbn; auto. by rewrite IH.
Qed.

Lemma for_each_ctl_app {A S} (body : A -> S -> M E (ctl * S)) xs ys s :
  outcome (for_each_ctl body (xs ++ ys) s) =
    match outcome (for_each_ctl body xs s) with
    | Ok (Next, s') => outcome (for_each_ctl body ys s')
    | r => r
    end
  /\ trace (for_each_ctl body (xs ++ ys) s) =
       trace (for_each_ctl body xs s) ++
       match outcome (for_each_ctl body xs s) with
       | Ok (Next, s') => trace (for_each_ctl body ys s')
       | _ => []
       end.
Proof.
  revert s. induction xs as [|x xs IH]; intros s; [done|].
  cbn [app for_each_ctl]. rewrite !outcome_bind, !trace_bind.
  destruct (outcome (body x s)) as [[[] s']|e]; cbn.
  - destruct (IH s') as [-> ->]. by rewrite app_assoc.
  - by rewrite !app_nil_r.
  - by rewrite !app_nil_r.
Qed.

(** Every event of a loop is an event of one of its turns. *)
Lemma Forall_trace_for_each_ctl {A S} (Q : E -> Prop) (body : A -> S -> M E (ctl * S)) xs s :
  (forall x s, x ∈ xs -> Forall Q (trace (body x s))) ->
  Forall Q (trace (for_each_ctl body xs s)).
Proof.
  revert s. induction xs as [|x xs IH]; intros s Hb; [constructor|].
  cbn [for_each_ctl]. apply Forall_trace_bind.
  - apply Hb. by left.
  - intros [[] s'] _; [|constructor]. apply IH. intros y t Hy. apply Hb. by right.
Qed.

Lemma Forall_trace_for_each {A S} (Q : E -> Prop) (body : A -> S -> M E (ctl * S)) xs s :
  (forall x s, x ∈ xs -> Forall Q (trace (body x s))) ->
  Forall Q (trace (for_each body xs s)).
Proof. rewrite for_each_trace. apply Forall_trace_for_each_ctl. Qed.

Lemma Forall_trace_for_in {S} (Q : E -> Prop) v (body : json -> S -> M E (ctl * S)) s :
  (forall x s, Forall Q (trace (body x s))) ->
  Forall Q (trace (for_in v body s)).
Proof.
  intros Hb. unfold for_in. apply Forall_trace_bind; [constructor|].
  intros xs _. apply Forall_trace_for_each. auto.
Qed.

(** A property of the loop-carried variables that every turn keeps holds
    when the loop is over. *)
Lemma for_each_inv {A S} (I : S -> Prop) (body : A -> S -> M E (ctl * S)) xs s s' :
  I s ->
  (forall x s r, x ∈ xs -> I s -> outcome (body x s) = Ok r -> I r.2) ->
  outcome (for_each body xs s) = Ok s' -> I s'.
Proof.
  revert s. induction xs as [|x xs IH]; intros s Hs Hb.
  - by intros [= <-].
  - cbn [for_each]. intros (r & Hr & H)%bind_ok_inv.
    assert (I r.2) as Hr2 by (eapply Hb; [by left | done | done]).
    destruct r as [[] t]; cbn in *.
    + eapply IH; [exact Hr2 | | exact H]. intros y u q Hy. apply Hb. by right.
    + by injection H as <-.
Qed.

Lemma for_in_inv {S} (I : S -> Prop) v (body : json -> S -> M E (ctl * S)) s s' :
  I s ->
  (forall x s r, I s -> outcome (body x s) = Ok r -> I r.2) ->
  outcome (for_in v body s) = Ok s' -> I s'.
Proof.
  intros Hs Hb. unfold for_in. intros (xs & _ & H)%bind_ok_inv.
  eapply for_each_inv; [exact Hs | | exact H]. eauto.
Qed.

End MonadFacts.

(* ===================================================================== *)
(** ** Remote calls *)
(* ===================================================================== *)

Lemma fetch_json_trace net url : Forall net_event (trace (fetch_json net url)).
Proof.
  unfold fetch_json. destruct url; try (repeat constructor).
  destruct (net s); repeat constructor.
Qed.

Lemma fetch_json_returns net url : exists v, outcome (fetch_json net url) = Ok v.
Proof.
  unfold fetch_json. destruct url; try (by eexists).
  destruct (net s); by eexists.
Qed.

Lemma fetch_json_failed net u :
  net u = None -> fetch_json net (JStr u) = ([Get u; Warn (JStr u)], Ok JNull).
Proof. intros H. unfold fetch_json. by rewrite H. Qed.

Lemma fetch_json_fetched net u body :
  net u = Some body -> fetch_json net (JStr u) = ([Get u], Ok body).
Proof. intros H. unfold fetch_json. by rewrite H. Qed.

Lemma fetch_if_trace net ref : Forall net_event (trace (fetch_if net ref)).
Proof. unfold fetch_if. destruct (truthy ref); [apply fetch_json_trace | constructor]. Qed.

(** Splits the trace of a computation along its binds and branches. *)
Ltac trace_step :=
  lazymatch goal with
  | |- Forall _ (trace (mbind _ _)) => apply Forall_trace_bind; [|intros ? _]
  | |- Forall _ (trace (lift _)) => constructor
  | |- Forall _ (trace (mret _)) => constructor
  | |- Forall _ (trace (go_on _)) => constructor
  | |- Forall _ (trace (stop _)) => constructor
  | |- Forall _ (trace (raise _)) => constructor
  | |- Forall _ (trace (fmap _ _)) => rewrite trace_fmap
  | |- Forall _ (trace (for_in _ _ _)) => apply Forall_trace_for_in; intros ? ?
  | |- Forall _ (trace (for_each _ _ _)) => apply Forall_trace_for_each; intros ? ? _
  | |- Forall _ (trace (if ?b then _ else _)) => destruct b
  | |- Forall _ (trace (match ?x with _ => _ end)) => destruct x
  | |- Forall _ (trace (let _ := _ in _)) => cbv zeta
  end.

Lemma fetch_score_trace net ref : Forall net_event (trace (fetch_score net ref)).
Proof.
  unfold fetch_score.
  repeat first [ apply fetch_if_trace | trace_step ].
Qed.

Lemma game_event_trace net week item s : Forall net_event (trace (game_event net week item s)).
Proof.
  unfold game_event.
  repeat first [ apply fetch_json_trace | apply fetch_score_trace | trace_step ].
Qed.

(* ===================================================================== *)
(** ** The week scan *)
(* ===================================================================== *)

Lemma scan_week_stops net season week s :
  week_is_empty net season week ->
  outcome (scan_week net season week s) = Ok (Break, s).
Proof.
  unfold week_is_empty, scan_week, fetch_json. intros H.
  destruct (net (week_url season week)) as [v|]; [|reflexivity].
  destruct v as [|b|z|t|l|kv]; try (cbn in H |- *; rewrite ?H; reflexivity).
  destruct kv as [|p kv]; [reflexivity|].
  remember (assoc "items" (p :: kv)) as it eqn:Hit.
  cbn -[assoc]. unfold py_get, py_get_default. cbn -[assoc].
  rewrite <- Hit, H. reflexivity.
Qed.

Lemma weeks_split mw wk :
  1 <= wk <= mw -> weeks mw = weeks (wk - 1) ++ wk :: seqZ (wk + 1) (mw - wk).
Proof.
  intros H. unfold weeks.
  replace mw with ((wk - 1) + (1 + (mw - wk))) at 1 by lia.
  rewrite seqZ_app by lia. f_equal.
  rewrite seqZ_cons by lia. f_equal; [lia|]. f_equal; lia.
Qed.

Lemma queried_weeks_app tr1 tr2 :
  queried_weeks (tr1 ++ tr2) = queried_weeks tr1 ++ queried_weeks tr2.
Proof. apply omap_app. Qed.

Lemma queried_weeks_none tr :
  Forall (fun e => forall w, e <> Info (WeekFetching w)) tr -> queried_weeks tr = [].
Proof.
  induction 1 as [|e tr He _ IH]; [reflexivity|].
  unfold queried_weeks in *. cbn. rewrite IH.
  destruct e as [| |[]|]; try reflexivity. by destruct (He week).
Qed.

Lemma net_event_no_week e : net_event e -> forall w, e <> Info (WeekFetching w).
Proof. intros H w ->. destruct H. Qed.

(** A turn of the scan queries its week, once. *)
Lemma scan_week_queries net season week s :
  queried_weeks (trace (scan_week net season week s)) = [week].
Proof.
  unfold scan_week. rewrite trace_bind.
  change (outcome (info (WeekFetching week))) with (Ok tt : result unit).
  change (trace (info (WeekFetching week))) with [Info (WeekFetching week)].
  cbv beta iota. rewrite queried_weeks_app.
  change (queried_weeks [Info (WeekFetching week)]) with [week].
  cbn [app]. f_equal.
  apply queried_weeks_none. unfold info, say.
  repeat first
    [ eapply Forall_impl; [apply fetch_json_trace | apply net_event_no_week]
    | eapply Forall_impl; [apply game_event_trace | apply net_event_no_week]
    | trace_step
    | by (constructor; [intros w [=] | constructor]) ].
Qed.

(** A scan queries an initial segment of its weeks, all of them when it
    runs to the end. *)
Lemma scan_queries net season xs s :
  queried_weeks (trace (for_each_ctl (scan_week net season) xs s)) `prefix_of` xs
  /\ forall s', outcome (for_each_ctl (scan_week net season) xs s) = Ok (Next, s') ->
       queried_weeks (trace (for_each_ctl (scan_week net season) xs s)) = xs.
Proof.
  revert s. induction xs as [|x xs IH]; intros s; [done|].
  cbn [for_each_ctl]. rewrite trace_bind, outcome_bind, queried_weeks_app, scan_week_queries.
  destruct (outcome (scan_week net season x s)) as [[[] t]|e]; cbn.
  - destruct (IH t) as [Hp Hall]. split; [by apply prefix_cons|].
    intros s' Hs'. f_equal. eauto.
  - split; [apply prefix_cons, prefix_nil | discriminate].
  - split; [apply prefix_cons, prefix_nil | discriminate].
Qed.

(** A scan that meets an empty week ends as the scan of the weeks before it
    does, and queries no week after it. *)
Lemma week_scan_cut net season mw wk :
  1 <= wk <= mw ->
  week_is_empty net season wk ->
  queried_weeks (trace (load_games net season mw)) `prefix_of` weeks wk
  /\ outcome (load_games net season mw) = outcome (load_games net season (wk - 1)).
Proof.
  intros Hwk Hempty. unfold load_games.
  rewrite (weeks_split mw wk Hwk).
  rewrite for_each_trace, !for_each_outcome.
  destruct (for_each_ctl_app (scan_week net season) (weeks (wk - 1))
              (wk :: seqZ (wk + 1) (mw - wk)) ([], [])) as [-> ->].
  assert (Hw : weeks wk = weeks (wk - 1) ++ [wk]).
  { rewrite (weeks_split wk wk) by lia. by rewrite Z.sub_diag. }
  destruct (scan_queries net season (weeks (wk - 1)) ([], [])) as [Hpre Hall].
  rewrite queried_weeks_app, Hw.
  destruct (outcome (for_each_ctl (scan_week net season) (weeks (wk - 1)) ([], [])))
    as [[[] s']|e]; cbv beta iota.
  - rewrite (Hall s' eq_refl). cbn [for_each_ctl].
    rewrite trace_bind, outcome_bind, (scan_week_stops net season wk s' Hempty).
    cbn [mbind result_bind fmap result_fmap mret M_ret trace outcome fst snd].
    rewrite app_nil_r, scan_week_queries. done.
  - rewrite app_nil_r. split; [by apply prefix_app_r | done].
  - rewrite app_nil_r. split; [by apply prefix_app_r | done].
Qed.









(* ===================================================================== *)
(** ** Claims about the schedule scan *)
(* ===================================================================== *)




(** C10.  A week listing that cannot be fetched halts the scan like a week
    without events: the turn prints the same "no events" line after the
    warning and breaks the loop with the rows unchanged, no later week is
    queried, and the scan ends exactly as a scan capped at week [w - 1]. *)
Theorem failed_week_listing_halts_scan net season max_weeks w :
  1 <= w <= max_weeks ->
  net (week_url season w) = None ->
  (forall s, scan_week net season w s =
             ([Info (WeekFetching w); Get (week_url season w);
               Warn (JStr (week_url season w)); Info NoEventsFound], Ok (Break, s)))
  /\ queried_weeks (trace (load_games net season max_weeks)) `prefix_of` weeks w
  /\ outcome (load_games net season max_weeks) = outcome (load_games net season (w - 1)).
Proof.
  intros Hw Hnet. split.
  - intros s. unfold scan_week. rewrite (fetch_json_failed _ _ Hnet). reflexivity.
  - apply week_scan_cut; [done|]. unfold week_is_empty. by rewrite Hnet.
Qed.

Lemma failed_week_listing_halts_scan_witness :
  (forall s, scan_week Sample.net_week2_down 2025 2 s =
             ([Info (WeekFetching 2); Get (week_url 2025 2);
               Warn (JStr (week_url 2025 2)); Info NoEventsFound], Ok (Break, s)))
  /\ queried_weeks (trace (load_games Sample.net_week2_down 2025 18)) `prefix_of` weeks 2
  /\ outcome (load_games Sample.net_week2_down 2025 18)
     = outcome (load_games Sample.net_week2_down 2025 (2 - 1)).
Proof.
  apply (failed_week_listing_halts_scan Sample.net_week2_down 2025 18 2).
  - lia.
  - vm_compute. reflexivity.
Defined.

Example scan_of_sample_season :
  queried_weeks (trace (load_games Sample.net 2025 18)) = [1; 2]
  /\ match outcome (load_games Sample.net 2025 18) with
     | Ok g => map GameID g.1
     | Raise _ => []
     end = [Some 401; None].
Proof. split; vm_compute; reflexivity. Qed.

(* ===================================================================== *)
(** ** What the tables hold *)
(* ===================================================================== *)

Lemma Ok_eq {A} (a b : A) : Ok a = Ok b -> a = b.
Proof. by intros [=]. Qed.

Lemma result_bind_inv {A B} (m : result A) (f : A -> result B) b :
  m ≫= f = Ok b -> exists a, m = Ok a /\ f a = Ok b.
Proof. destruct m as [a|e]; cbn; [eauto | discriminate]. Qed.

Lemma result_fmap_inv {A B} (g : A -> B) (m : result A) b :
  g <$> m = Ok b -> exists a, m = Ok a /\ b = g a.
Proof. destruct m as [a|e]; cbn; [|discriminate]. intros [= <-]. eauto. Qed.

Ltac unlift :=
  repeat match goal with
  | Hr : outcome (lift _) = Ok _ |- _ => apply lift_ok_inv in Hr
  end.

(** Takes a successful run apart, bind by bind. *)
Ltac inv_ok H :=
  repeat lazymatch type of H with
  | outcome (mbind _ _) = Ok _ =>
      let a := fresh "v" in let Ha := fresh "Hv" in
      apply bind_ok_inv in H as (a & Ha & H)
  | outcome (fmap _ _) = Ok _ =>
      let a := fresh "v" in let Ha := fresh "Hv" in
      apply fmap_ok_inv in H as (a & Ha & H)
  | outcome (lift _) = Ok _ => apply lift_ok_inv in H
  | mbind _ _ = Ok _ =>
      let a := fresh "v" in let Ha := fresh "Hv" in
      apply result_bind_inv in H as (a & Ha & H)
  | fmap _ _ = Ok _ =>
      let a := fresh "v" in let Ha := fresh "Hv" in
      apply result_fmap_inv in H as (a & Ha & H)
  | outcome (if ?b then _ else _) = Ok _ => destruct b eqn:?
  | (if ?b then _ else _) = Ok _ => destruct b eqn:?
  | outcome (match ?x with _ => _ end) = Ok _ => destruct x eqn:?
  | match ?x with _ => _ end = Ok _ => destruct x eqn:?
  | outcome (let _ := _ in _) = Ok _ => cbv zeta in H
  | (let _ := _ in _) = Ok _ => cbv zeta in H
  | outcome (raise _) = Ok _ => discriminate H
  | Raise _ = Ok _ => discriminate H
  end; unlift.

Lemma str_take_length n s : (String.length (str_take n s) <= n)%nat.
Proof.
  revert s. induction n as [|n IH]; intros [|c s]; cbn; try lia.
  specialize (IH s). lia.
Qed.



(** Goes into the loop whose result the goal is about. *)
Ltac into_loop :=
  match goal with
  | Hl : outcome (for_in _ _ _) = Ok ?r |- _ => revert Hl; apply for_in_inv
  | Hl : outcome (for_each _ _ _) = Ok ?r |- _ => revert Hl; apply for_each_inv
  end.


Lemma truthy_int_proper k : truthy_int k = true -> proper_key k.
Proof.
  destruct k as [z|]; cbn; [|discriminate].
  intros H. exists z. split; [done|]. intros ->. discriminate.
Qed.

Lemma roster_player_ok team_id player players r :
  Forall player_ok players ->
  roster_player team_id player players = Ok r -> Forall player_ok r.2.
Proof.
  unfold roster_player. intros Hps H. inv_ok H.
  - by apply Ok_eq in H as <-.
  - apply Ok_eq in H as <-. cbn [snd]. apply Forall_app. split; [done|].
    apply Forall_singleton. split; cbn [PlayerID Fname Lname Position].
    + apply truthy_int_proper. by destruct (truthy_int (safe_int v)).
    + repeat split; apply str_take_length.
Qed.

Lemma load_roster_ok net team_id players :
  outcome (load_roster net team_id) = Ok players -> Forall player_ok players.
Proof.
  unfold load_roster. intros H. inv_ok H.
  - apply Ok_eq in H as <-. constructor.
  - into_loop; [constructor|].
    clear. intros group ps r Hps H. inv_ok H. apply Ok_eq in H as <-. cbn [snd].
    into_loop; [done|].
    clear. intros player ps r Hps H. unlift. eauto using roster_player_ok.
Qed.

Lemma load_all_rosters_ok net team_ids rows :
  outcome (load_all_rosters net team_ids) = Ok rows -> Forall player_ok rows.
Proof.
  unfold load_all_rosters. intros H. inv_ok H. subst rows.
  revert Hv. apply (for_each_inv (fun s => Forall player_ok s.2)); [constructor|].
  intros tid [idx rows] r _ Hrows H. inv_ok H. apply Ok_eq in H as <-. cbn [snd] in *.
  apply Forall_app. eauto using load_roster_ok.
Qed.

(* --------------------------------------------------------------------- *)
(** *** Deduplication *)

Section DropDuplicates.

Context {A : Type} (key : A -> option Z).

Lemma drop_duplicates_from_elem seen rows r :
  r ∈ drop_duplicates_from key seen rows -> (key r ∉ seen) /\ (r ∈ rows).
Proof.
  revert seen. induction rows as [|x rows IH]; intros seen; cbn.
  - by intros ?%elem_of_nil.
  - destruct (decide (key x ∈ seen)) as [Hx|Hx].
    + intros Hr. apply IH in Hr as [? ?]. split; [done | by right].
    + intros [->|Hr]%elem_of_cons; [split; [done | by left]|].
      apply IH in Hr as [Hk ?]. split; [set_solver | by right].
Qed.

Lemma drop_duplicates_from_NoDup seen rows :
  NoDup (key <$> drop_duplicates_from key seen rows).
Proof.
  revert seen. induction rows as [|x rows IH]; intros seen; cbn; [constructor|].
  destruct (decide (key x ∈ seen)); [apply IH|].
  rewrite fmap_cons. apply NoDup_cons. split; [|apply IH].
  intros (y & Hy & [Hk _]%drop_duplicates_from_elem)%list_elem_of_fmap.
  set_solver.
Qed.

Lemma drop_duplicates_from_sublist seen rows :
  drop_duplicates_from key seen rows `sublist_of` rows.
Proof.
  revert seen. induction rows as [|x rows IH]; intros seen; cbn; [done|].
  destruct (decide (key x ∈ seen)); [by apply sublist_cons | by apply sublist_skip].
Qed.

Lemma first_with_key_cons x rows r :
  first_with_key key (x :: rows) r <-> r = x \/ (key x <> key r /\ first_with_key key rows r).
Proof.
  split.
  - intros ([|i] & Hi & Hfirst).
    + left. cbn in Hi. congruence.
    + right. split.
      * apply (Hfirst 0%nat x); [lia | done].
      * exists i. split; [done|]. intros j y Hj Hy. apply (Hfirst (S j) y); [lia | done].
  - intros [->|[Hx (i & Hi & Hfirst)]].
    + exists 0%nat. split; [done|]. intros j y Hj. lia.
    + exists (S i). split; [done|]. intros [|j] y Hj Hy.
      * cbn in Hy. congruence.
      * apply (Hfirst j y); [lia | done].
Qed.

Lemma first_with_key_elem rows r : first_with_key key rows r -> r ∈ rows.
Proof. intros (i & Hi & _). by eapply list_elem_of_lookup_2. Qed.

(** What stays is, for every key not seen before, its first row. *)
Lemma drop_duplicates_from_first seen rows r :
  r ∈ drop_duplicates_from key seen rows <-> (key r ∉ seen) /\ first_with_key key rows r.
Proof.
  revert seen. induction rows as [|x rows IH]; intros seen; cbn.
  - split; [by intros ?%elem_of_nil|]. by intros [_ ?%first_with_key_elem%elem_of_nil].
  - rewrite first_with_key_cons. destruct (decide (key x ∈ seen)) as [Hx|Hx].
    + rewrite IH. split.
      * intros [Hk Hf]. split; [done|]. right. split; [congruence | done].
      * intros [Hk [->|[_ Hf]]]; done.
    + rewrite elem_of_cons, IH. split.
      * intros [->|[Hk Hf]]; [by auto|]. split; [set_solver|].
        right. split; [set_solver | done].
      * intros [Hk [->|[Hne Hf]]]; [by left|]. right. split; [set_solver | done].
Qed.

Lemma drop_duplicates_first rows r :
  r ∈ drop_duplicates key rows <-> first_with_key key rows r.
Proof. unfold drop_duplicates. rewrite drop_duplicates_from_first. set_solver. Qed.

Lemma drop_duplicates_NoDup rows : NoDup (key <$> drop_duplicates key rows).
Proof. apply drop_duplicates_from_NoDup. Qed.

Lemma drop_duplicates_sublist rows : drop_duplicates key rows `sublist_of` rows.
Proof. apply drop_duplicates_from_sublist. Qed.

End DropDuplicates.

Lemma prune_players_sublist players game_stats :
  prune_players players game_stats `sublist_of` players.
Proof. unfold prune_players. apply sublist_filter. Qed.

Lemma player_table_sublist rows game_stats :
  player_table rows game_stats `sublist_of` drop_duplicates PlayerID rows.
Proof. unfold player_table. destruct game_stats; [done | apply prune_players_sublist]. Qed.

Lemma player_table_NoDup rows game_stats :
  NoDup (PlayerID <$> player_table rows game_stats).
Proof.
  eapply sublist_NoDup; [apply (drop_duplicates_NoDup PlayerID rows)|].
  apply fmap_sublist, player_table_sublist.
Qed.

(* --------------------------------------------------------------------- *)
(** *** Coaches *)



(* --------------------------------------------------------------------- *)
(** *** The run *)

(** A run that ends well went through every stage. *)
Lemma main_ok_inv net this_year a f :
  outcome (main net this_year a) = Ok f ->
  exists rows meta,
    outcome (load_teams net) = Ok (TEAM f)
    /\ outcome (load_all_rosters net (team_id_list (TEAM f))) = Ok rows
    /\ PLAYER f = player_table rows (GAME_STATS f)
    /\ outcome (load_coaches net (team_id_list (TEAM f)) (or_week (season a) this_year))
       = Ok (COACH f)
    /\ outcome (load_games net (or_week (season a) this_year) (max_weeks a)) = Ok (GAME f, meta)
    /\ outcome (if skip_game_stats a then mret [] else load_game_stats net meta)
       = Ok (GAME_STATS f).
Proof.
  unfold main, load_all_players. intros H. cbv zeta in H.
  apply bind_ok_inv in H as (_ & _ & H).
  apply bind_ok_inv in H as (teams & Hteams & H).
  apply bind_ok_inv in H as (players & Hplayers & H).
  apply bind_ok_inv in H as (coaches & Hcoaches & H).
  apply bind_ok_inv in H as ([games meta] & Hgames & H).
  apply bind_ok_inv in H as (game_stats & Hstats & H).
  apply bind_ok_inv in H as (pruned & Hpruned & H).
  apply bind_ok_inv in H as (_ & _ & H).
  apply bind_ok_inv in H as (_ & _ & H).
  apply bind_ok_inv in H as (_ & _ & H).
  apply Ok_eq in H as <-. cbn [TEAM PLAYER COACH GAME GAME_STATS fst snd] in *.
  apply bind_ok_inv in Hplayers as (rows & Hrows & Hplayers).
  apply bind_ok_inv in Hplayers as (_ & _ & Hplayers). apply Ok_eq in Hplayers as <-.
  exists rows, meta. repeat split; try done.
  unfold player_table. destruct game_stats.
  - by apply Ok_eq in Hpruned as <-.
  - apply bind_ok_inv in Hpruned as (_ & _ & Hpruned). by apply Ok_eq in Hpruned as <-.
Qed.

Lemma Forall_sublist {A} (P : A -> Prop) (l1 l2 : list A) :
  l1 `sublist_of` l2 -> Forall P l2 -> Forall P l1.
Proof. rewrite !Forall_forall. eauto using elem_of_sublist. Qed.

Lemma player_table_ok net team_ids rows game_stats :
  outcome (load_all_rosters net team_ids) = Ok rows ->
  Forall player_ok (player_table rows game_stats).
Proof.
  intros Hrows. eapply Forall_sublist; [apply player_table_sublist|].
  eapply Forall_sublist; [apply drop_duplicates_sublist|].
  eauto using load_all_rosters_ok.
Qed.

Lemma player_table_elem rows game_stats p :
  p ∈ player_table rows game_stats <->
  first_with_key PlayerID rows p
  /\ (game_stats = [] \/ exists st, st ∈ game_stats /\ StatPlayerID st = PlayerID p).
Proof.
  unfold player_table, prune_players. destruct game_stats as [|st0 sts].
  - rewrite drop_duplicates_first. naive_solver.
  - rewrite list_elem_of_filter, elem_of_list_to_set, list_elem_of_fmap, drop_duplicates_first.
    naive_solver.
Qed.

Lemma sample_run : outcome (main Sample.net 2024 Sample.run_args) = Ok sample_frames.
Proof. vm_compute. reflexivity. Qed.

(* ===================================================================== *)
(** ** Claims about the tables of a run *)
(* ===================================================================== *)




(** X19.  Every PLAYER row has a key: a roster entry whose id does not
    parse (or is 0) gives no row. *)
Theorem player_rows_have_keys net this_year a f :
  outcome (main net this_year a) = Ok f ->
  Forall (fun r => proper_key (PlayerID r)) (PLAYER f).
Proof.
  intros (rows & meta & _ & Hrows & -> & _)%main_ok_inv.
  eapply Forall_impl; [eapply player_table_ok; eassumption|]. by intros p [Hp _].
Qed.

Lemma player_rows_have_keys_witness :
  Forall (fun r => proper_key (PlayerID r)) (PLAYER sample_frames).
Proof.
  apply (player_rows_have_keys Sample.net 2024 Sample.run_args sample_frames).
  vm_compute. reflexivity.
Defined.

(** C3.  The claim holds for players only: [load_roster] skips an entry
    whose id does not parse, [load_coaches] and [load_games] have no such
    test.  In the sample season the coach and the second game have an id
    that is not a number, and both get a row, with no key. *)
Lemma coach_and_game_rows_without_key :
  outcome (main Sample.net 2024 Sample.run_args) = Ok sample_frames
  /\ (exists r, r ∈ COACH sample_frames /\ CoachID r = None)
  /\ (exists r, r ∈ GAME sample_frames /\ GameID r = None).
Proof.
  split; [exact sample_run|]. split.
  - eexists. split; [apply list_elem_of_here | reflexivity].
  - eexists. split; [apply list_elem_of_further, list_elem_of_here | reflexivity].
Qed.

(** C7.  The PLAYER table has one row per PlayerID at most.  Its rows are
    first occurrences among the roster rows, taken in the order the rosters
    were fetched: exactly the first occurrences when there are no
    statistics, and those of them that a statistics row refers to
    otherwise. *)
Theorem player_ids_unique net this_year a f :
  outcome (main net this_year a) = Ok f ->
  NoDup (PlayerID <$> PLAYER f)
  /\ exists rows,
       outcome (load_all_rosters net (team_id_list (TEAM f))) = Ok rows
       /\ forall p, p ∈ PLAYER f <->
            first_with_key PlayerID rows p
            /\ (GAME_STATS f = []
                \/ exists st, st ∈ GAME_STATS f /\ StatPlayerID st = PlayerID p).
Proof.
  intros (rows & meta & _ & Hrows & Hplayers & _)%main_ok_inv. rewrite Hplayers.
  split; [apply player_table_NoDup|].
  exists rows. split; [done|]. apply player_table_elem.
Qed.

Lemma player_ids_unique_witness :
  NoDup (PlayerID <$> PLAYER sample_frames)
  /\ exists rows,
       outcome (load_all_rosters Sample.net (team_id_list (TEAM sample_frames))) = Ok rows
       /\ forall p, p ∈ PLAYER sample_frames <->
            first_with_key PlayerID rows p
            /\ (GAME_STATS sample_frames = []
                \/ exists st, st ∈ GAME_STATS sample_frames /\ StatPlayerID st = PlayerID p).
Proof.
  apply (player_ids_unique Sample.net 2024 Sample.run_args sample_frames).
  vm_compute. reflexivity.
Defined.

Example sample_rosters_repeat_a_player :
  match outcome (load_all_rosters Sample.net (team_id_list (TEAM sample_frames))) with
  | Ok rows => PlayerID <$> rows
  | Raise _ => []
  end = [Some 7; Some 7]
  /\ PlayerID <$> PLAYER sample_frames = [Some 7]
  /\ Fname <$> PLAYER sample_frames = ["Patrick"].
Proof. repeat split; vm_compute; reflexivity. Qed.

(* ===================================================================== *)
(** ** Claims about the game statistics *)
(* ===================================================================== *)

Lemma fetch_if_returns net ref : exists v, outcome (fetch_if net ref) = Ok v.
Proof. unfold fetch_if. destruct (truthy ref); [apply fetch_json_returns | by eexists]. Qed.

(** An entry whose status says the game is not over leaves the rows as
    they are. *)
Lemma stats_entry_skips net e st s :
  outcome (fetch_if net (status_ref e)) = Ok st ->
  not_finished st = Ok true ->
  outcome (stats_entry net e s) = Ok (Next, s).
Proof.
  intros Hst Hnot. unfold stats_entry.
  destruct (negb (truthy_int (event_id e)) || negb (truthy_int (competition_id e)));
    [reflexivity|].
  rewrite outcome_bind, Hst. cbn [mbind result_bind].
  rewrite outcome_bind. change (outcome (lift (not_finished st))) with (not_finished st).
  rewrite Hnot. reflexivity.
Qed.

(** An entry with ids whose status is missing, or says the game is over, is
    processed. *)
Lemma stats_entry_processes net e st s :
  truthy_int (event_id e) = true ->
  truthy_int (competition_id e) = true ->
  outcome (fetch_if net (status_ref e)) = Ok st ->
  not_finished st = Ok false ->
  outcome (stats_entry net e s) = outcome (process_entry net e s).
Proof.
  intros He Hc Hst Hnot. unfold stats_entry. rewrite He, Hc. cbn [negb orb].
  rewrite outcome_bind, Hst. cbn [mbind result_bind].
  rewrite outcome_bind. change (outcome (lift (not_finished st))) with (not_finished st).
  rewrite Hnot. reflexivity.
Qed.

(** A turn that changes nothing can be left out of a loop. *)
Lemma for_each_skip {E A S} (body : A -> S -> M E (ctl * S)) xs x ys s :
  (forall s, outcome (body x s) = Ok (Next, s)) ->
  outcome (for_each body (xs ++ x :: ys) s) = outcome (for_each body (xs ++ ys) s).
Proof.
  intros Hx. rewrite !for_each_outcome.
  destruct (for_each_ctl_app body xs (x :: ys) s) as [-> _].
  destruct (for_each_ctl_app body xs ys s) as [-> _].
  destruct (outcome (for_each_ctl body xs s)) as [[[] s']|e]; try reflexivity.
  cbn [for_each_ctl]. rewrite outcome_bind, Hx. reflexivity.
Qed.

(** C2, as the code has it.  An event whose status was fetched and names a
    state other than "post" contributes no row: the run ends as it would
    without the event.  An event whose status reference is missing, or whose
    status cannot be fetched, is processed like a finished game. *)
Theorem unfinished_games_give_no_stats net e st :
  outcome (fetch_if net (status_ref e)) = Ok st ->
  (not_finished st = Ok true ->
   forall before after,
     outcome (load_game_stats net (before ++ e :: after))
     = outcome (load_game_stats net (before ++ after)))
  /\ (truthy st = false ->
      truthy_int (event_id e) = true ->
      truthy_int (competition_id e) = true ->
      forall s, outcome (stats_entry net e s) = outcome (process_entry net e s)).
Proof.
  intros Hst. split.
  - intros Hnot before after. unfold load_game_stats. rewrite !outcome_fmap. f_equal.
    apply for_each_skip. intros s. by eapply stats_entry_skips.
  - intros Hfalsy He Hc s. eapply stats_entry_processes; try done.
    unfold not_finished. by rewrite Hfalsy.
Qed.

Lemma unfinished_games_give_no_stats_witness :
  (forall before after,
     outcome (load_game_stats (Sample.net_with_status "in") (before ++ Sample.game_401 :: after))
     = outcome (load_game_stats (Sample.net_with_status "in") (before ++ after)))
  /\ (forall s, outcome (stats_entry Sample.net Sample.game_401 s)
                = outcome (process_entry Sample.net Sample.game_401 s)).
Proof.
  split.
  - apply (unfinished_games_give_no_stats (Sample.net_with_status "in") Sample.game_401
             (JObj [("type", JObj [("state", JStr "in")])])); reflexivity.
  - apply (unfinished_games_give_no_stats Sample.net Sample.game_401 JNull); reflexivity.
Defined.

(** C2 fails where the status cannot be fetched: the sample service has no
    answer for the status of game 401, and the game gets a statistics row. *)
Lemma stats_emitted_without_status :
  Sample.net "status/401" = None
  /\ status_ref Sample.game_401 = JStr "status/401"
  /\ exists row, outcome (load_game_stats Sample.net [Sample.game_401]) = Ok [row]
                 /\ StatGameID row = Some 401.
Proof.
  split; [reflexivity|]. split; [reflexivity|].
  eexists. split; [vm_compute; reflexivity | reflexivity].
Qed.

(** C5 fails where both sides list an athlete: the set of pairs already
    seen starts empty for each competitor, so athlete 7, listed by both
    teams of game 401, gets two rows. *)
Theorem athlete_on_both_sides_is_counted_twice :
  exists r1 r2,
    outcome (load_game_stats Sample.net_both_sides [Sample.game_401]) = Ok [r1; r2]
    /\ (StatGameID r1, StatPlayerID r1) = (Some 401, Some 7)
    /\ (StatGameID r2, StatPlayerID r2) = (Some 401, Some 7).
Proof. do 2 eexists. split; [vm_compute; reflexivity|]. split; reflexivity. Qed.

(* ===================================================================== *)
(** ** Claims about the team listing *)
(* ===================================================================== *)

Lemma rev_app_nonempty s acc : acc <> "" -> String.rev_app s acc <> "".
Proof. revert acc. induction s as [|c s IH]; intros acc H; cbn; [done|]. by apply IH. Qed.

Lemma rev_nonempty c s : String.rev (String c s) <> "".
Proof. unfold String.rev. cbn [String.rev_app]. by apply rev_app_nonempty. Qed.

Lemma py_split_go_nonempty cur s : Forall (fun t => t <> "") (py_split_go cur s).
Proof.
  revert cur. induction s as [|c s IH]; intros cur; cbn [py_split_go].
  - destruct cur; constructor; [apply rev_nonempty | constructor].
  - destruct (is_py_space c); [|apply IH].
    destruct cur; [apply IH|]. constructor; [apply rev_nonempty | apply IH].
Qed.

(** No team row has an empty city: where the service names neither a
    location nor a display name, no row is built at all. *)
Lemma city_is_never_empty entry row : team_row_of entry = Ok row -> City row <> "".
Proof.
  unfold team_row_of. intros H. inv_ok H.
  match goal with
  | Hc : match py_split ?x with _ => _ end = Ok ?c |- _ =>
      pose proof (py_split_go_nonempty "" x) as Hne; fold (py_split x) in Hne;
      destruct (py_split x) as [|first rest]; [discriminate Hc|];
      assert (c = str_take 15 first) as -> by congruence
  end.
  apply Ok_eq in H as <-. cbn [City].
  apply Forall_cons in Hne as [Hfirst _]. by destruct first.
Qed.

(** C6 fails for a team without location and display name: the city is
    taken as the first word of an empty text, which raises, and the run
    ends there. *)
Theorem team_without_city_aborts_the_run :
  outcome (load_teams Sample.net_bare_team) = Raise IndexError
  /\ outcome (main Sample.net_bare_team 2024 Sample.run_args) = Raise IndexError.
Proof. split; vm_compute; reflexivity. Qed.

(* ===================================================================== *)
(** ** Claims about failed remote calls *)
(* ===================================================================== *)

Lemma roster_url_not_teams team_id : roster_url team_id <> teams_url.
Proof. unfold roster_url, teams_url, ESPN_SITE. cbn [String.append]. discriminate. Qed.

Lemma coach_list_url_not_teams season tid : coach_list_url season tid <> teams_url.
Proof. unfold coach_list_url, teams_url, ESPN_SITE, ESPN_CORE. cbn [String.append]. discriminate. Qed.

Lemma week_url_not_teams season week : week_url season week <> teams_url.
Proof. unfold week_url, teams_url, ESPN_SITE, ESPN_CORE. cbn [String.append]. discriminate. Qed.

Lemma load_teams_raises net :
  net teams_url = None ->
  outcome (load_teams net) = Raise (RuntimeError "Could not fetch teams").
Proof. intros H. unfold load_teams. rewrite (fetch_json_failed _ _ H). reflexivity. Qed.

Lemma load_roster_down net team_id :
  net (roster_url team_id) = None -> outcome (load_roster net team_id) = Ok [].
Proof. intros H. unfold load_roster. rewrite (fetch_json_failed _ _ H). reflexivity. Qed.

Lemma ok_bind {A B} (a : A) (f : A -> result B) : Ok a ≫= f = f a.
Proof. reflexivity. Qed.

Lemma outcome_info msg : outcome (info msg) = Ok tt.
Proof. reflexivity. Qed.

Lemma outcome_ret {E A} (a : A) : outcome (mret (M:=M E) a) = Ok a.
Proof. reflexivity. Qed.

Lemma outcome_go_on {E S} (s : S) : outcome (go_on (E:=E) s) = Ok (Next, s).
Proof. reflexivity. Qed.

(** Runs the next step of a computation whose outcome is known. *)
Ltac run_with H := rewrite outcome_bind, H, ok_bind; cbv beta.

Lemma load_all_rosters_down net team_ids :
  (forall tid, net (roster_url tid) = None) ->
  outcome (load_all_rosters net team_ids) = Ok [].
Proof.
  intros Hdown. unfold load_all_rosters. rewrite outcome_fmap.
  generalize (length team_ids) as total. intros total. generalize 1%nat as idx.
  induction team_ids as [|tid team_ids IH]; intros idx; [reflexivity|].
  cbn [for_each]. rewrite outcome_bind.
  assert (Hturn : outcome (_ ← info (RosterFetching (team_key_int tid) idx total);
                           roster ← load_roster net (team_key_int tid);
                           go_on (S idx, [] ++ roster))
                  = Ok (Next, (S idx, []))).
  { run_with outcome_info. run_with (load_roster_down net (team_key_int tid) (Hdown _)).
    reflexivity. }
  rewrite Hturn, ok_bind. apply IH.
Qed.

Lemma load_coaches_down net team_ids season :
  (forall tid, net (coach_list_url season tid) = None) ->
  outcome (load_coaches net team_ids season) = Ok [].
Proof.
  intros Hdown. unfold load_coaches.
  induction team_ids as [|tid team_ids IH]; [reflexivity|].
  cbn [for_each]. rewrite outcome_bind, outcome_bind, (fetch_json_failed _ _ (Hdown tid)).
  change (outcome ([Get (coach_list_url season tid); Warn (JStr (coach_list_url season tid))],
                   Ok JNull)) with (Ok JNull).
  rewrite ok_bind. cbn [truthy negb]. rewrite outcome_go_on, ok_bind. apply IH.
Qed.

Lemma load_games_down net season max_weeks :
  net (week_url season 1) = None ->
  outcome (load_games net season max_weeks) = Ok ([], []).
Proof.
  intros Hdown. unfold load_games, weeks.
  destruct (decide (0 < max_weeks)) as [Hpos|Hneg].
  - rewrite seqZ_cons by done. cbn [for_each].
    rewrite outcome_bind, scan_week_stops; [reflexivity|].
    unfold week_is_empty. by rewrite Hdown.
  - rewrite seqZ_nil by lia. reflexivity.
Qed.

(** With the team listing in hand and every other call failing, the run
    ends well, with the teams alone. *)
Lemma main_with_teams_only net this_year a teams :
  outcome (load_teams net) = Ok teams ->
  (forall u, u <> teams_url -> net u = None) ->
  outcome (main net this_year a)
  = Ok {| TEAM := teams; PLAYER := []; COACH := []; GAME := []; GAME_STATS := [] |}.
Proof.
  intros Hteams Hdown. unfold main. cbv zeta.
  assert (Hplayers : outcome (load_all_players net (team_id_list teams)) = Ok []).
  { unfold load_all_players.
    run_with (load_all_rosters_down net (team_id_list teams)
                (fun tid => Hdown _ (roster_url_not_teams tid))).
    reflexivity. }
  assert (Hstats : outcome (if skip_game_stats a then mret [] else load_game_stats net [])
                   = Ok []) by (by destruct (skip_game_stats a)).
  assert (Hsave : forall f, outcome (if save a then save_frames f else mret tt) = Ok tt)
    by (by destruct (save a)).
  run_with outcome_info. run_with Hteams. run_with Hplayers.
  run_with (load_coaches_down net (team_id_list teams) (or_week (season a) this_year)
              (fun tid => Hdown _ (coach_list_url_not_teams _ tid))).
  run_with (load_games_down net (or_week (season a) this_year) (max_weeks a)
              (Hdown _ (week_url_not_teams _ 1))).
  cbn [fst snd]. run_with Hstats.
  rewrite outcome_bind, outcome_ret, ok_bind.
  run_with Hsave. reflexivity.
Qed.

Lemma main_raises_without_teams net this_year a :
  net teams_url = None ->
  outcome (main net this_year a) = Raise (RuntimeError "Could not fetch teams").
Proof.
  intros H. unfold main. cbv zeta. run_with outcome_info.
  rewrite outcome_bind, (load_teams_raises net H). reflexivity.
Qed.

Lemma outcome_lift {E A} (r : result A) : outcome (lift (E:=E) r) = r.
Proof. reflexivity. Qed.

Lemma outcome_fetch_failed net u : net u = None -> outcome (fetch_json net (JStr u)) = Ok JNull.
Proof. intros H. by rewrite (fetch_json_failed _ _ H). Qed.

Lemma fetch_if_failed net u : net u = None -> outcome (fetch_if net (JStr u)) = Ok JNull.
Proof.
  intros H. unfold fetch_if. destruct (truthy (JStr u)); [by apply outcome_fetch_failed | done].
Qed.

Ltac run_lift H := rewrite outcome_bind, outcome_lift, H, ok_bind; cbv beta.

(** C1, as the code has it.  No remote call raises: a call that fails is
    made once, prints a warning and gives no data.  Where the team listing
    gives no data the run is given up with an error.  At every other call
    site the caller goes on: no roster rows, no coach for the team, no
    score, the end of the week scan, the event or competitor or athlete left
    out, the game taken as finished; and with all of these failing at once
    the run still ends well, with the teams alone. *)
Theorem remote_failures_are_absorbed_except_team_listing net :
  (forall url, exists v, outcome (fetch_json net url) = Ok v)
  /\ (forall u, net u = None -> fetch_json net (JStr u) = ([Get u; Warn (JStr u)], Ok JNull))
  /\ (forall this_year a,
        net teams_url = None ->
        outcome (main net this_year a) = Raise (RuntimeError "Could not fetch teams"))
  /\ (forall team_id,
        net (roster_url team_id) = None -> outcome (load_roster net team_id) = Ok [])
  /\ (forall season tid,
        net (coach_list_url season tid) = None ->
        outcome (load_coaches net [tid] season) = Ok [])
  /\ (forall tid u rows,
        net u = None ->
        outcome (coach_item net tid (JObj [("$ref", JStr u)]) rows) = Ok (Next, rows))
  /\ (forall u, net u = None -> outcome (fetch_score net (JObj [("$ref", JStr u)])) = Ok None)
  /\ (forall season week s,
        net (week_url season week) = None ->
        outcome (scan_week net season week s) = Ok (Break, s))
  /\ (forall week u s,
        net u = None ->
        outcome (game_event net week (JObj [("$ref", JStr u)]) s) = Ok (Next, s))
  /\ (forall e u s,
        truthy_int (event_id e) = true -> truthy_int (competition_id e) = true ->
        status_ref e = JStr u -> net u = None ->
        outcome (stats_entry net e s) = outcome (process_entry net e s))
  /\ (forall e comp id t s,
        py_get comp "id" = Ok id -> safe_int id = Some t -> t <> 0 ->
        net (stats_url (default 0 (event_id e)) (default 0 (competition_id e)) t) = None ->
        outcome (stats_competitor net e comp s) = Ok (Next, s))
  /\ (forall e athlete_id u seen s,
        (event_id e, athlete_id) ∉ seen -> net u = None ->
        outcome (stats_athlete net e (athlete_id, JStr u) (seen, s))
        = Ok (Next, ({[ (event_id e, athlete_id) ]} ∪ seen, s)))
  /\ (forall this_year a teams,
        outcome (load_teams net) = Ok teams ->
        (forall u, u <> teams_url -> net u = None) ->
        outcome (main net this_year a)
        = Ok {| TEAM := teams; PLAYER := []; COACH := []; GAME := []; GAME_STATS := [] |}).
Proof.
  repeat apply conj.
  - apply fetch_json_returns.
  - apply fetch_json_failed.
  - intros. by apply main_raises_without_teams.
  - apply load_roster_down.
  - intros season tid H. unfold load_coaches. cbn [for_each].
    rewrite outcome_bind. run_with (outcome_fetch_failed net _ H). reflexivity.
  - intros tid u rows H. unfold coach_item.
    run_lift (eq_refl : py_get (JObj [("$ref", JStr u)]) "$ref" = Ok (JStr u)).
    run_with (fetch_if_failed net u H). reflexivity.
  - intros u H. unfold fetch_score.
    run_lift (eq_refl : py_get (JObj [("$ref", JStr u)]) "$ref" = Ok (JStr u)).
    run_with (fetch_if_failed net u H). reflexivity.
  - intros season week s H. apply scan_week_stops. unfold week_is_empty. by rewrite H.
  - intros week u s H. unfold game_event.
    run_lift (eq_refl : py_get (JObj [("$ref", JStr u)]) "$ref" = Ok (JStr u)).
    run_with (outcome_fetch_failed net u H). reflexivity.
  - intros e u s He Hc Hu H. apply (stats_entry_processes net e JNull); try done.
    rewrite Hu. by apply fetch_if_failed.
  - intros e comp id t s Hid Ht Hne H. unfold stats_competitor.
    run_lift Hid. cbv zeta. rewrite Ht. cbn [truthy_int default from_option Datatypes.id].
    rewrite (proj2 (Z.eqb_neq t 0) Hne). cbn [negb].
    run_with (outcome_fetch_failed net _ H). reflexivity.
  - intros e athlete_id u seen [rows processed] Hseen H. unfold stats_athlete.
    rewrite decide_False by done.
    run_with (outcome_fetch_failed net u H). reflexivity.
  - intros. by apply main_with_teams_only.
Qed.

Lemma remote_failures_are_absorbed_except_team_listing_witness :
  outcome (main Sample.net_down 2024 Sample.run_args)
  = Raise (RuntimeError "Could not fetch teams")
  /\ outcome (main Sample.net_teams_only 2024 Sample.run_args)
     = Ok {| TEAM := TEAM sample_frames; PLAYER := []; COACH := []; GAME := [];
             GAME_STATS := [] |}.
Proof.
  split.
  - apply (remote_failures_are_absorbed_except_team_listing Sample.net_down). reflexivity.
  - apply (remote_failures_are_absorbed_except_team_listing Sample.net_teams_only).
    + vm_compute. reflexivity.
    + intros u Hu. unfold Sample.net_teams_only, Sample.table. cbn [assoc].
      destruct (String.eqb_spec u teams_url); [done | reflexivity].
Defined.

(** C1 fails for the team listing: with the service out of reach the run
    is given up at its first call. *)
Lemma run_aborts_without_team_listing :
  Sample.net_down teams_url = None
  /\ main Sample.net_down 2024 Sample.run_args
     = ([Info (LoadingSeason 2025); Get teams_url; Warn (JStr teams_url)],
        Raise (RuntimeError "Could not fetch teams")).
Proof. split; [reflexivity | vm_compute; reflexivity]. Qed.

(* ===================================================================== *)
(** ** Claims about the loader *)
(* ===================================================================== *)

Module LoaderFacts.
Import Loader LoaderSpec.

Lemma for_each_cons_next {E A S} (body : A -> S -> M E (ctl * S)) x rest s s' :
  outcome (body x s) = Ok (Next, s') ->
  outcome (for_each body (x :: rest) s) = outcome (for_each body rest s')
  /\ trace (for_each body (x :: rest) s) = trace (body x s) ++ trace (for_each body rest s').
Proof.
  intros H. cbn [for_each]. rewrite outcome_bind, trace_bind, H. split; reflexivity.
Qed.

Lemma inserted_app table tr1 tr2 :
  inserted table (tr1 ++ tr2) = inserted table tr1 ++ inserted table tr2.
Proof. unfold inserted. by rewrite omap_app, concat_app. Qed.

Lemma key_set_elem rows c :
  c ∈ key_set rows <-> c <> CNone /\ exists r, r ∈ rows /\ r !! 0%nat = Some c.
Proof.
  unfold key_set. rewrite elem_of_list_to_set, list_elem_of_omap. split.
  - intros (r & Hr & Hc). destruct r as [|c' rest]; [done|].
    destruct c'; try done; injection Hc as <-; (split; [done|]);
      eexists; (split; [exact Hr | reflexivity]).
  - intros (Hc & r & Hr & Hlook). exists r. split; [done|].
    destruct r as [|c' rest]; [done|]. injection Hlook as ->. by destruct c.
Qed.

Lemma has_parents_spec player_ids game_ids r :
  has_parents player_ids game_ids r <->
  exists gid pid, r !! 0%nat = Some gid /\ r !! 1%nat = Some pid
                  /\ gid ∈ game_ids /\ pid ∈ player_ids.
Proof.
  destruct r as [|gid [|pid rest]]; cbn.
  - split; [done|]. by intros (? & ? & ? & _).
  - split; [done|]. by intros (? & ? & _ & ? & _).
  - split; [by eauto 6|]. by intros (? & ? & [= <-] & [= <-] & ?).
Qed.

Section Run.

Context (files : string -> option dataframe) (to_datetime : cell -> cell) (env : environ).

Lemma filter_missing_none (have want : list string) :
  Forall (fun c => c ∈ have) want -> filter (fun c => c ∉ have) want = [].
Proof.
  induction 1 as [|c want Hc _ IH]; [done|].
  rewrite filter_cons, decide_False by auto. exact IH.
Qed.

Lemma load_csv_readable a t :
  readable files a t ->
  exists rows, load_csv files to_datetime (csv_path a t.1) t.2 = Ok rows
               /\ Forall (fun r => length r = length t.2) rows.
Proof.
  intros (df & Hfile & Hcols). unfold load_csv.
  rewrite Hfile, (filter_missing_none _ _ Hcols).
  eexists. split; [reflexivity|].
  apply Forall_fmap, Forall_true. intros r. cbn. by rewrite length_fmap.
Qed.

(** The rows kept are the rows with both parents, in their order; nothing
    is printed and nothing is raised while they are picked. *)
Lemma keep_rows_run player_ids game_ids rows acc :
  Forall (fun r => (2 <= length r)%nat) rows ->
  for_each (keep_row player_ids game_ids) rows acc
  = ([], Ok (acc ++ filter (has_parents player_ids game_ids) rows)).
Proof.
  intros Hrows. revert acc. induction Hrows as [|r rows Hr _ IH]; intros acc.
  - cbn. by rewrite app_nil_r.
  - destruct r as [|gid [|pid rest]]; cbn in Hr; try lia.
    assert (Hturn : keep_row player_ids game_ids (gid :: pid :: rest) acc
                    = ([], Ok (Next, acc ++ filter (has_parents player_ids game_ids)
                                                   [gid :: pid :: rest]))).
    { unfold keep_row, row_cell. rewrite filter_cons, filter_nil.
      cbn [lookup list_lookup lift mbind M_bind app].
      destruct (decide (has_parents player_ids game_ids (gid :: pid :: rest))) as [Hp|Hp];
        cbn in Hp; destruct (decide (gid ∈ game_ids /\ pid ∈ player_ids)); try done.
      cbn. by rewrite app_nil_r. }
    cbn [for_each]. rewrite Hturn. cbn [mbind M_bind]. rewrite IH. cbn [app].
    change ((gid :: pid :: rest) :: rows) with ([gid :: pid :: rest] ++ rows).
    by rewrite filter_app, app_assoc.
Qed.

Lemma drop_orphans_run player_ids game_ids rows :
  Forall (fun r => (2 <= length r)%nat) rows ->
  drop_orphans player_ids game_ids rows
  = ([], Ok (filter (has_parents player_ids game_ids) rows)).
Proof. intros H. unfold drop_orphans. by rewrite keep_rows_run. Qed.

Lemma load_table_run a table cols s rows :
  load_csv files to_datetime (csv_path a table) cols = Ok rows ->
  Forall (fun r => (2 <= length r)%nat) rows ->
  outcome (load_table files to_datetime a (table, cols) s)
  = Ok (Next, (if String.eqb table "PLAYER" then key_set (kept_rows table s rows) else s.1,
               if String.eqb table "GAME" then key_set (kept_rows table s rows) else s.2))
  /\ trace (load_table files to_datetime a (table, cols) s)
     = Print (LoadFrom table (csv_path a table))
       :: skip_lines table rows (kept_rows table s rows)
       ++ trace (insert_rows table cols (kept_rows table s rows))
       ++ [Print (Inserted table (length (kept_rows table s rows)))].
Proof.
  intros Hload Hrows. unfold load_table, kept_rows, skip_lines.
  fold (csv_path a table). rewrite Hload.
  destruct (String.eqb table "GAME_STATS").
  - unfold say, lift. cbn [mbind M_bind]. rewrite (drop_orphans_run _ _ _ Hrows).
    set (kept := filter _ rows). change (filter _ rows) with kept. clearbody kept.
    cbn [mbind M_bind].
    destruct (bool_decide (length kept <> length rows)); destruct kept;
      split; reflexivity.
  - destruct rows; split; reflexivity.
Qed.

Lemma inserted_load_table a table cols s rows table' :
  load_csv files to_datetime (csv_path a table) cols = Ok rows ->
  Forall (fun r => (2 <= length r)%nat) rows ->
  inserted table' (trace (load_table files to_datetime a (table, cols) s))
  = if String.eqb table table' then kept_rows table s rows else [].
Proof.
  intros Hload Hrows.
  destruct (load_table_run a table cols s rows Hload Hrows) as [_ ->].
  change (Print ?e :: ?l) with ([Print e] ++ l). rewrite !inserted_app.
  assert (Hskip : inserted table' (skip_lines table rows (kept_rows table s rows)) = []).
  { unfold skip_lines.
    destruct (String.eqb table "GAME_STATS"); [|reflexivity].
    destruct (bool_decide _); reflexivity. }
  rewrite Hskip. unfold insert_rows.
  destruct (kept_rows table s rows) as [|r kept]; cbn.
  - by destruct (String.eqb table table').
  - destruct (String.eqb table table'); cbn; by rewrite ?app_nil_r.
Qed.

Lemma table_turn a table cols rest s rows :
  load_csv files to_datetime (csv_path a table) cols = Ok rows ->
  Forall (fun r => (2 <= length r)%nat) rows ->
  outcome (for_each (load_table files to_datetime a) ((table, cols) :: rest) s)
  = outcome (for_each (load_table files to_datetime a) rest (next_ids table s rows))
  /\ (forall table',
        inserted table' (trace (for_each (load_table files to_datetime a)
                                  ((table, cols) :: rest) s))
        = (if String.eqb table table' then kept_rows table s rows else [])
          ++ inserted table' (trace (for_each (load_table files to_datetime a) rest
                                       (next_ids table s rows))))
  /\ (forall e, e ∈ skip_lines table rows (kept_rows table s rows) ->
                e ∈ trace (for_each (load_table files to_datetime a) ((table, cols) :: rest) s))
  /\ (forall e, e ∈ trace (for_each (load_table files to_datetime a) rest
                              (next_ids table s rows)) ->
                e ∈ trace (for_each (load_table files to_datetime a) ((table, cols) :: rest) s)).
Proof.
  intros Hload Hrows.
  destruct (load_table_run a table cols s rows Hload Hrows) as [Ho Ht].
  destruct (for_each_cons_next (load_table files to_datetime a) (table, cols) rest s _ Ho)
    as [Ho' Ht'].
  split; [exact Ho'|]. split.
  - intros table'. rewrite Ht', inserted_app. f_equal. by apply inserted_load_table.
  - split; intros e He; rewrite Ht'; [rewrite Ht|]; set_solver.
Qed.

Lemma wide_enough (cols : list string) (rows : list row) :
  (2 <= length cols)%nat ->
  Forall (fun r => length r = length cols) rows ->
  Forall (fun r => (2 <= length r)%nat) rows.
Proof.
  intros Hc H. eapply Forall_impl; [exact H|]. cbn. intros r Hr. by rewrite Hr.
Qed.

Lemma file_rows_loaded a table cols rows :
  table_get table TABLE_ORDER = Some cols ->
  load_csv files to_datetime (csv_path a table) cols = Ok rows ->
  file_rows files to_datetime a table = rows.
Proof. intros Hc Hl. unfold file_rows. by rewrite Hc, Hl. Qed.

(** The whole run, when the credentials are there and the five files can
    be read. *)
Lemma main_run a :
  credentials_resolved env a ->
  Forall (readable files a) TABLE_ORDER ->
  let run := main files to_datetime env a in
  let rows := file_rows files to_datetime a in
  let kept := filter (has_parents (key_set (rows "PLAYER")) (key_set (rows "GAME")))
                     (rows "GAME_STATS") in
  outcome run = Ok tt
  /\ inserted "PLAYER" (trace run) = rows "PLAYER"
  /\ inserted "GAME" (trace run) = rows "GAME"
  /\ inserted "GAME_STATS" (trace run) = kept
  /\ (length kept <> length (rows "GAME_STATS") ->
      Print (Skipped (length (rows "GAME_STATS") - length kept)) ∈ trace run).
Proof.
  intros (Hu & Hp & Hd) Hread. unfold TABLE_ORDER in Hread.
  apply Forall_cons in Hread as [(rT & HT & HlT)%load_csv_readable Hread].
  apply Forall_cons in Hread as [(rP & HP & HlP)%load_csv_readable Hread].
  apply Forall_cons in Hread as [(rC & HC & HlC)%load_csv_readable Hread].
  apply Forall_cons in Hread as [(rG & HG & HlG)%load_csv_readable Hread].
  apply Forall_cons in Hread as [(rS & HS & HlS)%load_csv_readable _].
  cbn [fst snd] in *.
  apply wide_enough in HlT, HlP, HlC, HlG, HlS; try (cbn; lia).
  rewrite (file_rows_loaded a "PLAYER" _ rP eq_refl HP).
  rewrite (file_rows_loaded a "GAME" _ rG eq_refl HG).
  rewrite (file_rows_loaded a "GAME_STATS" _ rS eq_refl HS).
  set (keptS := filter (has_parents (key_set rP) (key_set rG)) rS).
  unfold main. rewrite Hu, Hp, Hd. cbn [negb orb].
  set (tables := for_each (load_table files to_datetime a)).
  match type of HT with load_csv _ _ _ ?c = _ => set (cT := c) in * end.
  match type of HP with load_csv _ _ _ ?c = _ => set (cP := c) in * end.
  match type of HC with load_csv _ _ _ ?c = _ => set (cC := c) in * end.
  match type of HG with load_csv _ _ _ ?c = _ => set (cG := c) in * end.
  match type of HS with load_csv _ _ _ ?c = _ => set (cS := c) in * end.
  destruct (table_turn a "GAME_STATS" cS [] (key_set rP, key_set rG) rS HS HlS)
    as (Ho5 & Hi5 & Hs5 & _).
  destruct (table_turn a "GAME" cG [("GAME_STATS", cS)] (key_set rP, ∅) rG HG HlG)
    as (Ho4 & Hi4 & _ & Hk4).
  destruct (table_turn a "COACH" cC [("GAME", cG); ("GAME_STATS", cS)] (key_set rP, ∅) rC
              HC HlC) as (Ho3 & Hi3 & _ & Hk3).
  destruct (table_turn a "PLAYER" cP [("COACH", cC); ("GAME", cG); ("GAME_STATS", cS)]
              (∅, ∅) rP HP HlP) as (Ho2 & Hi2 & _ & Hk2).
  destruct (table_turn a "TEAM" cT
              [("PLAYER", cP); ("COACH", cC); ("GAME", cG); ("GAME_STATS", cS)]
              (∅, ∅) rT HT HlT) as (Ho1 & Hi1 & _ & Hk1).
  fold tables in Ho1, Ho2, Ho3, Ho4, Ho5, Hi1, Hi2, Hi3, Hi4, Hi5, Hs5, Hk1, Hk2, Hk3, Hk4.
  assert (Hloop : outcome (tables TABLE_ORDER (∅, ∅)) = Ok (key_set rP, key_set rG)).
  { unfold TABLE_ORDER. fold cT cP cC cG cS. rewrite Ho1. etransitivity; [exact Ho2|].
    etransitivity; [exact Ho3|]. etransitivity; [exact Ho4|]. exact Ho5. }
  assert (Hins : forall table',
    inserted table' (trace (tables TABLE_ORDER (∅, ∅)))
    = (if String.eqb "TEAM" table' then rT else [])
      ++ (if String.eqb "PLAYER" table' then rP else [])
      ++ (if String.eqb "COACH" table' then rC else [])
      ++ (if String.eqb "GAME" table' then rG else [])
      ++ (if String.eqb "GAME_STATS" table' then keptS else [])).
  { intros table'. unfold TABLE_ORDER. fold cT cP cC cG cS. rewrite Hi1. f_equal.
    etransitivity; [apply Hi2|]. f_equal.
    etransitivity; [apply Hi3|]. f_equal.
    etransitivity; [apply Hi4|]. f_equal.
    etransitivity; [apply Hi5|]. by rewrite app_nil_r. }
  assert (Hskip : forall e, e ∈ skip_lines "GAME_STATS" rS keptS ->
                            e ∈ trace (tables TABLE_ORDER (∅, ∅))).
  { intros e He. unfold TABLE_ORDER. fold cT cP cC cG cS. apply Hk1, Hk2, Hk3, Hk4, Hs5, He. }
  clearbody tables. clear Ho1 Ho2 Ho3 Ho4 Ho5 Hi1 Hi2 Hi3 Hi4 Hi5 Hs5 Hk1 Hk2 Hk3 Hk4.
  set (reset := if truncate a then _ else _).
  assert (Hor : outcome reset = Ok tt) by (subst reset; by destruct (truncate a)).
  assert (Hir : forall table', inserted table' (trace reset) = [])
    by (intros; subst reset; by destruct (truncate a)).
  assert (Htrace : trace (_ ← reset; _ ← tables TABLE_ORDER (∅, ∅); _ ← say Commit;
                          say (Print AllDone))
                   = trace reset ++ trace (tables TABLE_ORDER (∅, ∅))
                     ++ [Commit; Print AllDone]).
  { rewrite trace_bind, Hor, trace_bind, Hloop. reflexivity. }
  rewrite Htrace. split; [|split; [|split; [|split]]].
  - rewrite outcome_bind, Hor, ok_bind, outcome_bind, Hloop. reflexivity.
  - rewrite !inserted_app, Hir, Hins. cbn. by rewrite !app_nil_r.
  - rewrite !inserted_app, Hir, Hins. cbn. by rewrite !app_nil_r.
  - rewrite !inserted_app, Hir, Hins. cbn. by rewrite !app_nil_r.
  - intros Hlen. apply elem_of_app. right. apply elem_of_app. left.
    apply Hskip. unfold skip_lines.
    change (String.eqb "GAME_STATS" "GAME_STATS") with true. cbv iota.
    rewrite bool_decide_eq_true_2 by done. apply list_elem_of_here.
Qed.


End Run.

(** C4.  In a run whose credentials are there and whose five files can be
    read, nothing is fatal, and every GAME_STATS row handed to the insert
    has a GameID among the keys of the GAME rows inserted in this run and a
    PlayerID among the keys of the PLAYER rows inserted in this run.  The
    rows handed on are exactly the rows of the file with both parents; when
    some were left out, their number is printed. *)
Theorem stats_rows_have_parents files to_datetime env a :
  credentials_resolved env a ->
  Forall (readable files a) TABLE_ORDER ->
  let run := main files to_datetime env a in
  let stats := file_rows files to_datetime a "GAME_STATS" in
  let sent := inserted "GAME_STATS" (trace run) in
  outcome run = Ok tt
  /\ (forall r, r ∈ sent ->
        exists gid pid g p,
          r !! 0%nat = Some gid /\ r !! 1%nat = Some pid /\ gid <> CNone /\ pid <> CNone
          /\ g ∈ inserted "GAME" (trace run) /\ g !! 0%nat = Some gid
          /\ p ∈ inserted "PLAYER" (trace run) /\ p !! 0%nat = Some pid)
  /\ sent = filter (has_parents (key_set (inserted "PLAYER" (trace run)))
                                (key_set (inserted "GAME" (trace run)))) stats
  /\ (length sent <> length stats ->
      Print (Skipped (length stats - length sent)) ∈ trace run).
Proof.
  intros Hcred Hread run stats sent.
  destruct (main_run files to_datetime env a Hcred Hread) as (Hok & HP & HG & HS & Hskip).
  fold run stats in Hok, HP, HG, HS, Hskip. fold sent in HS.
  split; [exact Hok|]. split; [|split].
  - intros r Hr. rewrite HS in Hr.
    apply list_elem_of_filter in Hr as [Hpar _].
    apply has_parents_spec in Hpar as (gid & pid & H0 & H1 & Hg & Hp).
    apply key_set_elem in Hg as (Hgn & g & Hg & Hg0).
    apply key_set_elem in Hp as (Hpn & p & Hp & Hp0).
    exists gid, pid, g, p. rewrite HG, HP. done.
  - rewrite HP, HG. exact HS.
  - rewrite HS. exact Hskip.
Qed.



Lemma sample_files_readable : Forall (readable sample_files sample_args) TABLE_ORDER.
Proof.
  unfold TABLE_ORDER.
  repeat (apply List.Forall_cons; [eexists; split; [vm_compute; reflexivity | repeat constructor]|]).
  apply List.Forall_nil.
Defined.

Lemma stats_rows_have_parents_witness :
  let run := main sample_files sample_to_datetime sample_env sample_args in
  let stats := file_rows sample_files sample_to_datetime sample_args "GAME_STATS" in
  let sent := inserted "GAME_STATS" (trace run) in
  outcome run = Ok tt
  /\ (forall r, r ∈ sent ->
        exists gid pid g p,
          r !! 0%nat = Some gid /\ r !! 1%nat = Some pid /\ gid <> CNone /\ pid <> CNone
          /\ g ∈ inserted "GAME" (trace run) /\ g !! 0%nat = Some gid
          /\ p ∈ inserted "PLAYER" (trace run) /\ p !! 0%nat = Some pid)
  /\ sent = filter (has_parents (key_set (inserted "PLAYER" (trace run)))
                                (key_set (inserted "GAME" (trace run)))) stats
  /\ (length sent <> length stats ->
      Print (Skipped (length stats - length sent)) ∈ trace run).
Proof.
  apply (stats_rows_have_parents sample_files sample_to_datetime sample_env sample_args).
  - repeat split; reflexivity.
  - exact sample_files_readable.
Defined.


Example sample_load_drops_three_orphans :
  let run := main sample_files sample_to_datetime sample_env sample_args in
  length (file_rows sample_files sample_to_datetime sample_args "GAME_STATS") = 4%nat
  /\ inserted "GAME_STATS" (trace run)
     = [[CNum 401; CNum 7; CNum 300; CNum 0; CNum 0; CNum 3; CNum 0; CNum 0]]
  /\ In (Print (Skipped 3)) (trace run)
  /\ outcome run = Ok tt.
Proof.
  cbv zeta. split; [vm_compute; reflexivity|]. split; [vm_compute; reflexivity|].
  split; [|vm_compute; reflexivity].
  vm_compute. tauto.
Qed.

End LoaderFacts.

(* ===================================================================== *)
(** ** Further properties of the extractor *)
(* ===================================================================== *)

(* --------------------------------------------------------------------- *)
(** *** One coach per team *)

Lemma coach_item_cases net tid item rows r :
  outcome (coach_item net tid item rows) = Ok r ->
  r = (Next, rows)
  \/ exists row, r = (Break, rows ++ [row]) /\ CoachTeamID row = tid /\ Role row = "Head Coach".
Proof.
  unfold coach_item. intros H. inv_ok H.
  - left. by apply Ok_eq in H.
  - right. apply Ok_eq in H as <-. eexists. split; [reflexivity|]. split; reflexivity.
Qed.

Lemma coach_items_run net tid items rows rows' :
  outcome (for_each (coach_item net tid) items rows) = Ok rows' ->
  rows' = rows
  \/ exists row, rows' = rows ++ [row] /\ CoachTeamID row = tid /\ Role row = "Head Coach".
Proof.
  induction items as [|item items IH]; cbn [for_each].
  - intros H. left. by apply Ok_eq in H.
  - intros (r & Hr & H)%bind_ok_inv.
    apply coach_item_cases in Hr as [->|(row & -> & Htid & Hrole)].
    + by apply IH.
    + right. apply Ok_eq in H as <-. eauto.
Qed.

Lemma load_coaches_from net team_ids season rows0 rows :
  outcome (for_each (fun tid rows =>
      listing ← fetch_json net (JStr (coach_list_url season tid));
      if negb (truthy listing) then go_on rows
      else
        items ← lift (py_get_default listing "items" (JArr []));
        rows ← for_in items (coach_item net tid) rows;
        go_on rows) team_ids rows0) = Ok rows ->
  exists added,
    rows = rows0 ++ added
    /\ (CoachTeamID <$> added) `sublist_of` team_ids
    /\ Forall (fun r => Role r = "Head Coach") added.
Proof.
  revert rows0. induction team_ids as [|tid team_ids IH]; intros rows0; cbn [for_each].
  - intros H. apply Ok_eq in H as <-. exists []. by rewrite app_nil_r.
  - intros (r & Hr & H)%bind_ok_inv.
    assert (Hturn : r.1 = Next
                    /\ (r.2 = rows0
                        \/ exists row, r.2 = rows0 ++ [row] /\ CoachTeamID row = tid
                                       /\ Role row = "Head Coach")).
    { inv_ok Hr.
      - apply Ok_eq in Hr as <-. auto.
      - apply Ok_eq in Hr as <-. split; [done|]. cbn [snd].
        match goal with
        | Hl : outcome (for_in _ _ _) = Ok _ |- _ =>
            unfold for_in in Hl; apply bind_ok_inv in Hl as (xs & _ & Hl);
            by apply coach_items_run in Hl
        end. }
    destruct r as [c rows1]. cbn [fst snd] in Hturn. destruct Hturn as [-> Hrows1].
    apply IH in H as (added & -> & Hsub & Hrole).
    destruct Hrows1 as [->|(row & -> & Htid & Hr1)].
    + exists added. split; [done|]. split; [by apply sublist_cons | done].
    + exists (row :: added). split; [by rewrite <- app_assoc|].
      split; [|by constructor].
      rewrite fmap_cons, Htid. by apply sublist_skip.
Qed.

(** X1.  The COACH table has at most one row for each team asked about, in
    the order of the teams, and every row has the role "Head Coach". *)
Theorem one_head_coach_per_team net team_ids season rows :
  outcome (load_coaches net team_ids season) = Ok rows ->
  (CoachTeamID <$> rows) `sublist_of` team_ids
  /\ (length rows <= length team_ids)%nat
  /\ Forall (fun r => Role r = "Head Coach") rows.
Proof.
  unfold load_coaches. intros (added & -> & Hsub & Hrole)%load_coaches_from.
  cbn [app]. split; [done|]. split; [|done].
  apply sublist_length in Hsub. by rewrite length_fmap in Hsub.
Qed.

Lemma one_head_coach_per_team_witness :
  (CoachTeamID <$> COACH sample_frames) `sublist_of` [TInt 12; TInt 25]
  /\ (length (COACH sample_frames) <= length [TInt 12; TInt 25])%nat
  /\ Forall (fun r => Role r = "Head Coach") (COACH sample_frames).
Proof.
  apply (one_head_coach_per_team Sample.net [TInt 12; TInt 25] 2025 (COACH sample_frames)).
  vm_compute. reflexivity.
Defined.

(* --------------------------------------------------------------------- *)
(** *** Players and coaches belong to listed teams *)

Lemma roster_player_team team_id player players r :
  Forall (fun p => PlayerTeamID p = team_id) players ->
  roster_player team_id player players = Ok r ->
  Forall (fun p => PlayerTeamID p = team_id) r.2.
Proof.
  unfold roster_player. intros Hps H. inv_ok H.
  - by apply Ok_eq in H as <-.
  - apply Ok_eq in H as <-. cbn [snd]. apply Forall_app. split; [done|].
    by apply Forall_singleton.
Qed.

Lemma load_roster_team net team_id players :
  outcome (load_roster net team_id) = Ok players ->
  Forall (fun p => PlayerTeamID p = team_id) players.
Proof.
  unfold load_roster. intros H. inv_ok H.
  - apply Ok_eq in H as <-. constructor.
  - into_loop; [constructor|].
    clear. intros group ps r Hps H. inv_ok H. apply Ok_eq in H as <-. cbn [snd].
    into_loop; [done|].
    clear. intros player ps r Hps H. unlift. eauto using roster_player_team.
Qed.

Lemma load_all_rosters_team net team_ids rows :
  outcome (load_all_rosters net team_ids) = Ok rows ->
  Forall (fun p => PlayerTeamID p ∈ team_key_int <$> team_ids) rows.
Proof.
  unfold load_all_rosters. intros H. inv_ok H. subst rows.
  revert Hv.
  apply (for_each_inv (fun s => Forall (fun p => PlayerTeamID p ∈ team_key_int <$> team_ids) s.2));
    [constructor|].
  intros tid [idx rows] r Htid Hrows H. inv_ok H. apply Ok_eq in H as <-. cbn [snd] in *.
  apply Forall_app. split; [done|].
  eapply Forall_impl; [eapply load_roster_team; eassumption|].
  cbn. intros p ->. by apply list_elem_of_fmap_2.
Qed.

Lemma team_id_list_keys teams : team_key_int <$> team_id_list teams = omap TeamID teams.
Proof.
  unfold team_id_list. destruct (forallb _ teams); rewrite <- list_fmap_compose;
    by rewrite list_fmap_id.
Qed.

Lemma team_of_key teams z :
  z ∈ team_key_int <$> team_id_list teams -> exists t, t ∈ teams /\ TeamID t = Some z.
Proof.
  rewrite team_id_list_keys, list_elem_of_omap. intros (t & Ht & Hz). eauto.
Qed.

(** X2.  Every PLAYER row and every COACH row carries the id of a team of
    the TEAM table of the same run. *)
Theorem players_and_coaches_belong_to_teams net this_year a f :
  outcome (main net this_year a) = Ok f ->
  (forall p, p ∈ PLAYER f -> exists t, t ∈ TEAM f /\ TeamID t = Some (PlayerTeamID p))
  /\ (forall c, c ∈ COACH f ->
        exists t, t ∈ TEAM f /\ TeamID t = Some (team_key_int (CoachTeamID c))).
Proof.
  intros (rows & meta & _ & Hrows & Hplayers & Hcoaches & _)%main_ok_inv. split.
  - intros p Hp. apply team_of_key. rewrite Hplayers in Hp.
    apply load_all_rosters_team in Hrows. rewrite Forall_forall in Hrows. apply Hrows.
    eapply elem_of_sublist; [|apply drop_duplicates_sublist].
    eapply elem_of_sublist; [exact Hp | apply player_table_sublist].
  - intros c Hc. apply team_of_key.
    unfold load_coaches in Hcoaches.
    apply load_coaches_from in Hcoaches as (added & Hadded & Hsub & _).
    cbn [app] in Hadded. subst added.
    apply list_elem_of_fmap_2. eapply elem_of_sublist; [|exact Hsub].
    by apply list_elem_of_fmap_2.
Qed.

Lemma players_and_coaches_belong_to_teams_witness :
  (forall p, p ∈ PLAYER sample_frames ->
     exists t, t ∈ TEAM sample_frames /\ TeamID t = Some (PlayerTeamID p))
  /\ (forall c, c ∈ COACH sample_frames ->
        exists t, t ∈ TEAM sample_frames /\ TeamID t = Some (team_key_int (CoachTeamID c))).
Proof.
  apply (players_and_coaches_belong_to_teams Sample.net 2024 Sample.run_args sample_frames).
  vm_compute. reflexivity.
Defined.

(* --------------------------------------------------------------------- *)
(** *** Games and the entries kept for the statistics *)

Lemma find_side_found side competitors c :
  find_side side competitors = Ok c -> truthy c = true ->
  py_get c "homeAway" = Ok (JStr side).
Proof.
  induction competitors as [|x xs IH]; cbn [find_side].
  - intros H. apply Ok_eq in H as <-. discriminate.
  - intros (h & Hh & H)%result_bind_inv Hc.
    destruct (py_eq_str h side) eqn:Heq; [|by apply IH].
    apply Ok_eq in H as <-. rewrite Hh. f_equal.
    destruct h; try discriminate. cbn in Heq. by apply String.eqb_eq in Heq as ->.
Qed.

Lemma split_on_head_clean sep s :
  str_has sep (default EmptyString (head (split_on sep s))) = false.
Proof.
  induction s as [|c s IH]; [reflexivity|]. cbn [split_on].
  destruct (Ascii.eqb c sep) eqn:Hc; [reflexivity|].
  destruct (split_on sep s) as [|h t] eqn:Hs; cbn in *.
  - by rewrite Hc.
  - by rewrite Hc, IH.
Qed.

Lemma or_week_nonzero a week : week <> 0 -> or_week a week <> 0.
Proof.
  intros Hw. unfold or_week. destruct a as [z|]; [|done].
  destruct (z =? 0) eqn:Hz; [done|]. by apply Z.eqb_neq.
Qed.

(** An item of a listing adds nothing, or one GAME row and its entry. *)
Lemma game_event_cases net week item s r :
  week <> 0 ->
  outcome (game_event net week item s) = Ok r ->
  r = (Next, s)
  \/ exists g m, r = (Next, (s.1 ++ [g], s.2 ++ [m])) /\ game_matches g m /\ game_ok g.
Proof.
  intros Hweek H. unfold game_event in H. inv_ok H.
  - left. by apply Ok_eq in H.
  - left. by apply Ok_eq in H.
  - right. apply Ok_eq in H as <-. do 2 eexists. split; [reflexivity|].
    apply orb_false_iff in Heqb0 as [Hhome Haway].
    apply negb_false_iff in Hhome, Haway.
    repeat match goal with
    | Hf : mbind (find_side _) (py_iter _) = Ok _ |- _ =>
        apply result_bind_inv in Hf as (? & _ & Hf)
    end.
    split; [split; [reflexivity|]|split].
    + do 2 eexists. split; [reflexivity|]. split; eapply find_side_found; eassumption.
    + apply split_on_head_clean.
    + by apply or_week_nonzero.
Qed.

Lemma scan_week_keeps net season week s r :
  week <> 0 ->
  Forall2 game_matches s.1 s.2 /\ Forall game_ok s.1 ->
  outcome (scan_week net season week s) = Ok r ->
  Forall2 game_matches r.2.1 r.2.2 /\ Forall game_ok r.2.1.
Proof.
  intros Hweek Hs H. unfold scan_week in H. inv_ok H.
  - by apply Ok_eq in H as <-.
  - by apply Ok_eq in H as <-.
  - apply Ok_eq in H as <-. cbn [snd].
    match goal with Hl : outcome (for_in _ _ _) = Ok _ |- _ => revert Hl end.
    apply (for_in_inv (fun s => Forall2 game_matches s.1 s.2 /\ Forall game_ok s.1)); [done|].
    intros item s' r' Hs' Hr'.
    apply game_event_cases in Hr' as [->|(g & m & -> & Hgm & Hg)]; [done | | done].
    cbn [fst snd]. destruct Hs' as [Hall Hok]. split.
    + apply Forall2_app; [done|]. constructor; [done | constructor].
    + apply Forall_app. split; [done|]. by apply Forall_singleton.
Qed.

Lemma load_games_in_step net season max_weeks rows meta :
  outcome (load_games net season max_weeks) = Ok (rows, meta) ->
  Forall2 game_matches rows meta /\ Forall game_ok rows.
Proof.
  unfold load_games. intros H.
  revert H.
  apply (for_each_inv (fun s => Forall2 game_matches s.1 s.2 /\ Forall game_ok s.1));
    [by split; constructor|].
  intros week s r Hweek Hs Hr. apply (scan_week_keeps net season week s r); try done.
  unfold weeks in Hweek. apply elem_of_seqZ in Hweek. lia.
Qed.

(** X3.  The GAME rows and the entries kept for the statistics stage go
    in step: as many of each, the i-th entry has the event id of the i-th
    row and lists its competitor marked home, then the one marked away.  The
    date of a row has no time part left and its week is never 0. *)
Theorem games_and_entries_go_in_step net season max_weeks rows meta :
  outcome (load_games net season max_weeks) = Ok (rows, meta) ->
  Forall2 game_matches rows meta /\ length rows = length meta /\ Forall game_ok rows.
Proof.
  intros [Hstep Hok]%load_games_in_step. split; [done|]. split; [|done].
  by eapply Forall2_length.
Qed.

Lemma games_and_entries_go_in_step_witness :
  Forall2 game_matches sample_schedule.1 sample_schedule.2
  /\ length sample_schedule.1 = length sample_schedule.2
  /\ Forall game_ok sample_schedule.1.
Proof.
  apply (games_and_entries_go_in_step Sample.net 2025 18).
  vm_compute. reflexivity.
Defined.

(* --------------------------------------------------------------------- *)
(** *** Statistics rows *)

Lemma counted_or_zero v : counted (py_or v (JNum 0)).
Proof. unfold counted, py_or. destruct (truthy v) eqn:Hv; auto. Qed.

Lemma counted_or_or_zero v w : counted (py_or v (py_or w (JNum 0))).
Proof.
  unfold py_or at 1. destruct (truthy v) eqn:Hv; [by right | apply counted_or_zero].
Qed.

Lemma counted_num z : counted (JNum z).
Proof.
  unfold counted. cbn. destruct (z =? 0) eqn:Hz; [|by right].
  left. by apply Z.eqb_eq in Hz as ->.
Qed.

(** Adding two counters gives a counter. *)
Lemma py_add_counted a b c : counted a -> counted b -> py_add a b = Ok c -> counted c.
Proof.
  intros Ha Hb H.
  destruct a as [| |x|x|x|]; destruct b as [| |y|y|y|]; cbn in H; try discriminate;
    apply Ok_eq in H as <-; try apply counted_num.
  - right. destruct Ha as [|Ha]; [done|]. by destruct x.
  - right. destruct Ha as [|Ha]; [done|]. by destruct x.
Qed.

Lemma athlete_ref_of_keeps ath refs r :
  Forall (fun ar : option Z * json => truthy_int ar.1 = true) refs ->
  athlete_ref_of ath refs = Ok r ->
  Forall (fun ar : option Z * json => truthy_int ar.1 = true) r.2.
Proof.
  unfold athlete_ref_of. intros Hrefs H. inv_ok H.
  - apply Ok_eq in H as <-. cbn [snd]. apply Forall_app. split; [done|].
    apply Forall_singleton. cbn [fst]. by apply andb_true_iff in Heqb as [_ ?].
  - by apply Ok_eq in H as <-.
Qed.

Section StatsRows.

Context (net : world) (e : meta_entry) (R : stats_row -> Prop).

(** [R] holds of every row that can be built for the entry [e]. *)
Hypothesis R_row : forall r,
  StatGameID r = event_id e -> proper_key (StatPlayerID r) -> counters_ok r -> R r.

Lemma stats_athlete_keeps ar s r :
  truthy_int ar.1 = true ->
  Forall R s.2.1 ->
  outcome (stats_athlete net e ar s) = Ok r -> Forall R r.2.2.1.
Proof.
  destruct ar as [athlete_id stat_ref], s as [seen [rows processed]]. cbn [fst snd].
  intros Hid Hrows H. unfold stats_athlete in H. inv_ok H;
    try (by apply Ok_eq in H as <-).
  all: apply Ok_eq in H as <-; cbn [fst snd]; apply Forall_app; (split; [done|]).
  all: apply Forall_singleton; apply R_row; [reflexivity | by apply truthy_int_proper |].
  all: repeat split; cbn [Pass_yrd Rush_yrd Rec_yrd Touchdowns Tackles Interceptions];
    try apply counted_or_zero; try apply counted_or_or_zero.
  all: match goal with
    | Ht : mbind _ (py_add _ _) = Ok _ |- _ =>
        apply result_bind_inv in Ht as (t & Ht1 & Ht2);
        eapply py_add_counted; [| |exact Ht2];
        [eapply py_add_counted; [| |exact Ht1]|]; apply counted_or_zero
    end.
Qed.

Lemma stats_competitor_keeps comp s r :
  Forall R s.1 ->
  outcome (stats_competitor net e comp s) = Ok r -> Forall R r.2.1.
Proof.
  intros Hs H. unfold stats_competitor in H. inv_ok H.
  - by apply Ok_eq in H as <-.
  - by apply Ok_eq in H as <-.
  - apply Ok_eq in H as <-. cbn [snd].
    assert (Hrefs : Forall (fun ar : option Z * json => truthy_int ar.1 = true) v3).
    { match goal with
      | Hl : outcome (for_in _ _ []) = Ok v3 |- _ => revert Hl
      end.
      apply for_in_inv; [constructor|].
      intros cat refs r Hrefs Hr. inv_ok Hr. apply Ok_eq in Hr as <-. cbn [snd].
      into_loop; [done|].
      intros ath refs' r' Hrefs' Hr'. unlift. eauto using athlete_ref_of_keeps. }
    match goal with
    | Hl : outcome (for_each (stats_athlete net e) v3 _) = Ok _ |- _ => revert Hl
    end.
    apply (for_each_inv (fun t : gset (option Z * option Z) * stats_acc => Forall R t.2.1));
      [done|].
    intros ar t r Har Ht Hr. rewrite Forall_forall in Hrefs.
    eapply stats_athlete_keeps; [by apply Hrefs | exact Ht | exact Hr].
Qed.

Lemma process_entry_keeps s r :
  Forall R s.1 ->
  outcome (process_entry net e s) = Ok r -> Forall R r.2.1.
Proof.
  intros Hs H. unfold process_entry in H. inv_ok H. apply Ok_eq in H as <-. cbn [snd].
  match goal with
  | Hl : outcome (for_each _ _ _) = Ok _ |- _ => revert Hl
  end.
  apply (for_each_inv (fun t : stats_acc => Forall R t.1)); [done|].
  intros comp t r _ Ht Hr. by eapply stats_competitor_keeps.
Qed.

End StatsRows.

Lemma stats_entry_keeps net meta e s r :
  e ∈ meta ->
  Forall (fun x => stats_row_of meta x /\ counters_ok x) s.1 ->
  outcome (stats_entry net e s) = Ok r ->
  Forall (fun x => stats_row_of meta x /\ counters_ok x) r.2.1.
Proof.
  intros He Hs H. unfold stats_entry in H.
  destruct (truthy_int (event_id e)) eqn:Hid; cbn [negb orb] in H;
    [|by apply Ok_eq in H as <-].
  inv_ok H.
  - by apply Ok_eq in H as <-.
  - by apply Ok_eq in H as <-.
  - eapply process_entry_keeps; [|exact Hs|exact H].
    intros x Hx Hp Hc. split; [|done]. split; [by eauto|]. split; [|done].
    rewrite Hx. by apply truthy_int_proper.
Qed.

Lemma load_game_stats_rows net meta rows :
  outcome (load_game_stats net meta) = Ok rows ->
  Forall (fun x => stats_row_of meta x /\ counters_ok x) rows.
Proof.
  unfold load_game_stats. intros H. inv_ok H. subst rows. revert Hv.
  apply (for_each_inv (fun t : stats_acc =>
           Forall (fun x => stats_row_of meta x /\ counters_ok x) t.1)); [constructor|].
  intros e s r He Hs Hr. by eapply stats_entry_keeps.
Qed.

(** X4.  Every GAME_STATS row of a run has a GameID and a PlayerID that are
    present and not 0, and its GameID is the key of a row of the GAME table
    of the same run. *)
Theorem stats_rows_refer_to_games net this_year a f :
  outcome (main net this_year a) = Ok f ->
  forall r, r ∈ GAME_STATS f ->
    proper_key (StatGameID r) /\ proper_key (StatPlayerID r)
    /\ exists g, g ∈ GAME f /\ GameID g = StatGameID r.
Proof.
  intros (rows & meta & _ & _ & _ & _ & Hgames & Hstats)%main_ok_inv r Hr.
  destruct (skip_game_stats a).
  - apply Ok_eq in Hstats. rewrite <- Hstats in Hr. by apply elem_of_nil in Hr.
  - apply load_game_stats_rows in Hstats. rewrite Forall_forall in Hstats.
    destruct (Hstats r Hr) as [((e & He & Hid) & Hg & Hp) _].
    split; [done|]. split; [done|].
    apply load_games_in_step in Hgames as [Hstep _].
    apply list_elem_of_lookup in He as [i Hi].
    destruct (Forall2_lookup_r _ _ _ _ _ Hstep Hi) as (g & Hgi & [Hge _]).
    exists g. split; [by eapply list_elem_of_lookup_2 | congruence].
Qed.

Lemma stats_rows_refer_to_games_witness :
  Forall (fun r => proper_key (StatGameID r) /\ proper_key (StatPlayerID r)
                   /\ exists g, g ∈ GAME sample_frames /\ GameID g = StatGameID r)
    (GAME_STATS sample_frames).
Proof.
  apply Forall_forall.
  apply (stats_rows_refer_to_games Sample.net 2024 Sample.run_args sample_frames).
  vm_compute. reflexivity.
Defined.

(** X5.  No counter of a GAME_STATS row is null or blank: each of the six
    is 0 or a value Python takes as true, the touchdown total included. *)
Theorem stats_counters_default_to_zero net this_year a f :
  outcome (main net this_year a) = Ok f -> Forall counters_ok (GAME_STATS f).
Proof.
  intros (rows & meta & _ & _ & _ & _ & _ & Hstats)%main_ok_inv.
  destruct (skip_game_stats a).
  - apply Ok_eq in Hstats. rewrite <- Hstats. constructor.
  - apply load_game_stats_rows in Hstats.
    eapply Forall_impl; [exact Hstats|]. by intros x [_ Hx].
Qed.

Lemma stats_counters_default_to_zero_witness : Forall counters_ok (GAME_STATS sample_frames).
Proof.
  apply (stats_counters_default_to_zero Sample.net 2024 Sample.run_args sample_frames).
  vm_compute. reflexivity.
Defined.

(* --------------------------------------------------------------------- *)
(** *** One request per roster *)

(** A loop whose turns never break and each leave one mark leaves the marks
    of an initial part of its items, of all of them when it ends well. *)
Lemma for_each_marks {E A S B} (mark : E -> option B) (g : A -> B)
    (body : A -> S -> M E (ctl * S)) xs s :
  (forall x s, omap mark (trace (body x s)) = [g x]) ->
  (forall x s r, outcome (body x s) = Ok r -> r.1 = Next) ->
  omap mark (trace (for_each body xs s)) `prefix_of` (g <$> xs)
  /\ forall s', outcome (for_each body xs s) = Ok s' ->
       omap mark (trace (for_each body xs s)) = g <$> xs.
Proof.
  intros Hmark Hnext. revert s. induction xs as [|x xs IH]; intros s; [done|].
  cbn [for_each]. rewrite trace_bind, outcome_bind, omap_app, Hmark, fmap_cons.
  destruct (outcome (body x s)) as [[c t]|e] eqn:Hx; cbn [mbind result_bind app].
  - apply Hnext in Hx. cbn in Hx. subst c.
    destruct (IH t) as [Hp Hall]. split; [by apply prefix_cons|].
    intros s' Hs'. f_equal. by eapply Hall.
  - split; [apply prefix_cons, prefix_nil | discriminate].
Qed.

Lemma requests_none tr : Forall (fun e => forall u, e <> Get u) tr -> requests tr = [].
Proof.
  induction 1 as [|e tr He _ IH]; [reflexivity|].
  unfold requests in *. cbn. rewrite IH. destruct e; try reflexivity. by destruct (He url).
Qed.

Lemma requests_fetch_json net u : requests (trace (fetch_json net (JStr u))) = [u].
Proof. unfold fetch_json. by destruct (net u). Qed.

Lemma load_roster_requests net team_id :
  requests (trace (load_roster net team_id)) = [roster_url team_id].
Proof.
  unfold load_roster. rewrite trace_bind. unfold requests at 1.
  rewrite omap_app. fold (requests (trace (fetch_json net (JStr (roster_url team_id))))).
  rewrite requests_fetch_json. cbn [app]. f_equal.
  destruct (outcome (fetch_json net (JStr (roster_url team_id)))) as [data|]; [|reflexivity].
  apply requests_none. repeat trace_step.
Qed.

Lemma roster_turn_requests net total tid (s : nat * list player_row) :
  requests (trace (let '(idx, rows) := s in
                   _ ← info (RosterFetching (team_key_int tid) idx total);
                   roster ← load_roster net (team_key_int tid);
                   go_on (S idx, rows ++ roster)))
  = [roster_url (team_key_int tid)].
Proof.
  destruct s as [idx rows]. rewrite trace_bind, outcome_info, trace_bind.
  unfold requests. rewrite !omap_app. fold (requests (trace (load_roster net (team_key_int tid)))).
  rewrite load_roster_requests. cbn [info say trace fst omap app].
  destruct (outcome (load_roster net (team_key_int tid))); reflexivity.
Qed.

(** X6.  Loading the rosters asks for one roster per team, in the order of
    the teams, and never twice: the requests made are the roster addresses
    of an initial part of the teams, and of all teams when the loading ends
    well. *)
Theorem one_request_per_roster net team_ids :
  requests (trace (load_all_rosters net team_ids))
    `prefix_of` ((fun tid => roster_url (team_key_int tid)) <$> team_ids)
  /\ forall rows, outcome (load_all_rosters net team_ids) = Ok rows ->
       requests (trace (load_all_rosters net team_ids))
       = (fun tid => roster_url (team_key_int tid)) <$> team_ids.
Proof.
  unfold load_all_rosters. rewrite trace_fmap.
  match goal with
  | |- context [for_each ?b team_ids ?s0] =>
      destruct (for_each_marks (fun e => match e with Get u => Some u | _ => None end)
                  (fun tid => roster_url (team_key_int tid)) b team_ids s0) as [Hp Hall]
  end.
  - intros tid s. apply roster_turn_requests.
  - intros tid [idx rows] r Hr. inv_ok Hr. by apply Ok_eq in Hr as <-.
  - split; [exact Hp|]. intros rows (s' & Hs' & _)%fmap_ok_inv. by eapply Hall.
Qed.

Lemma one_request_per_roster_witness :
  requests (trace (load_all_rosters Sample.net [TInt 12; TInt 25]))
  = [roster_url 12; roster_url 25].
Proof.
  eapply (one_request_per_roster Sample.net [TInt 12; TInt 25]).
  vm_compute. reflexivity.
Defined.

(* ===================================================================== *)
(** ** Further properties of the loader *)
(* ===================================================================== *)

Module LoaderMore.
Import Loader LoaderSpec LoaderTerms LoaderFacts.

Section Run.

Context (files : string -> option dataframe) (to_datetime : cell -> cell) (env : environ).

Lemma load_csv_width path cols rows :
  load_csv files to_datetime path cols = Ok rows ->
  Forall (fun r => length r = length cols) rows.
Proof.
  unfold load_csv. destruct (files path) as [df|]; [|discriminate].
  destruct (filter _ cols); [|discriminate]. intros H. apply Ok_eq in H as <-.
  apply Forall_fmap, Forall_true. intros r. cbn. by rewrite length_fmap.
Qed.

Lemma keep_row_keeps (P : row -> Prop) player_ids game_ids r filtered out :
  P r -> Forall P filtered ->
  outcome (keep_row player_ids game_ids r filtered) = Ok out -> Forall P out.2.
Proof.
  intros Hr Hf H. unfold keep_row in H. inv_ok H; apply Ok_eq in H as <-; [|done].
  cbn [snd]. apply Forall_app. split; [done | by apply Forall_singleton].
Qed.

Lemma drop_orphans_keeps (P : row -> Prop) player_ids game_ids rows filtered :
  Forall P rows ->
  outcome (drop_orphans player_ids game_ids rows) = Ok filtered -> Forall P filtered.
Proof.
  intros Hrows. unfold drop_orphans. apply for_each_inv; [constructor|].
  intros r acc out Hr Hacc Hout. rewrite Forall_forall in Hrows.
  eapply keep_row_keeps; [by apply Hrows | exact Hacc | exact Hout].
Qed.

Lemma drop_orphans_silent player_ids game_ids rows :
  trace (drop_orphans player_ids game_ids rows) = [].
Proof.
  assert (H : Forall (fun _ => False) (trace (drop_orphans player_ids game_ids rows))).
  { unfold drop_orphans, keep_row. repeat trace_step. }
  by destruct H.
Qed.

(** The events of the turn of a table. *)
Lemma load_table_events a t s :
  Forall (turn_event t) (trace (load_table files to_datetime a t s)).
Proof.
  destruct t as [table cols]. unfold load_table.
  apply Forall_trace_bind; [by repeat constructor|]. intros _ _.
  apply Forall_trace_bind; [constructor|]. intros rows Hrows%lift_ok_inv%load_csv_width.
  apply Forall_trace_bind.
  { destruct (String.eqb table "GAME_STATS"); [|constructor].
    apply Forall_trace_bind; [by rewrite drop_orphans_silent|]. intros filtered _.
    apply Forall_trace_bind; [|intros; constructor].
    destruct (bool_decide _); by repeat constructor. }
  intros kept Hkept.
  assert (Hwidth : Forall (fun r => length r = length cols) kept).
  { destruct (String.eqb table "GAME_STATS").
    - apply bind_ok_inv in Hkept as (filtered & Hf & Hkept).
      apply bind_ok_inv in Hkept as (_ & _ & Hkept). apply Ok_eq in Hkept as <-.
      by eapply drop_orphans_keeps.
    - by apply Ok_eq in Hkept as <-. }
  apply Forall_trace_bind.
  { unfold insert_rows. destruct kept as [|r kept]; [constructor|].
    apply Forall_singleton. by repeat split. }
  intros _ _. apply Forall_trace_bind; [by repeat constructor|]. intros; constructor.
Qed.

Lemma truncate_tables_trace tables :
  trace (truncate_tables tables) = Truncate <$> tables
  /\ outcome (truncate_tables tables) = Ok tt.
Proof.
  unfold truncate_tables. induction tables as [|t tables [IHt IHo]]; [done|].
  match goal with
  | |- context [for_each ?b (t :: tables) tt] =>
      destruct (for_each_cons_next b t tables tt tt eq_refl) as [-> ->]
  end.
  split; [|exact IHo]. rewrite IHt. reflexivity.
Qed.

(** How the trace of a run with credentials is put together. *)
Lemma main_trace a :
  credentials_resolved env a ->
  let tables := for_each (load_table files to_datetime a) TABLE_ORDER (∅, ∅) in
  trace (main files to_datetime env a)
  = reset_events a ++ trace tables
    ++ match outcome tables with Ok _ => [Commit; Print AllDone] | Raise _ => [] end
  /\ outcome (main files to_datetime env a)
     = match outcome tables with Ok _ => Ok tt | Raise e => Raise e end.
Proof.
  intros (Hu & Hp & Hd) tables. unfold main. rewrite Hu, Hp, Hd. cbn [negb orb].
  fold tables. set (reset := if truncate a then _ else _).
  assert (Hreset : trace reset = reset_events a /\ outcome reset = Ok tt).
  { subst reset. unfold reset_events. destruct (truncate a); [|done].
    destruct (truncate_tables_trace (reverse (fst <$> TABLE_ORDER))) as [Ht Ho].
    rewrite trace_bind, outcome_bind, Ht, Ho. done. }
  destruct Hreset as [Ht Ho].
  rewrite trace_bind, outcome_bind, Ht, Ho, ok_bind, trace_bind, outcome_bind.
  destruct (outcome tables); done.
Qed.

Lemma tables_events a :
  Forall (fun e => exists t, t ∈ TABLE_ORDER /\ turn_event t e)
    (trace (for_each (load_table files to_datetime a) TABLE_ORDER (∅, ∅))).
Proof.
  apply Forall_trace_for_each. intros t s Ht.
  eapply Forall_impl; [apply load_table_events|]. eauto.
Qed.

Lemma inserted_tables_bind {A B} (m : DB A) (g : A -> DB B) :
  inserted_tables (trace (m ≫= g))
  = inserted_tables (trace m)
    ++ match outcome m with Ok x => inserted_tables (trace (g x)) | Raise _ => [] end.
Proof.
  rewrite trace_bind. unfold inserted_tables. rewrite omap_app.
  by destruct (outcome m).
Qed.

(** A turn hands at most one batch to the database, for its table. *)
Lemma load_table_batches a table cols s :
  inserted_tables (trace (load_table files to_datetime a (table, cols) s))
    `sublist_of` [table].
Proof.
  unfold load_table. rewrite inserted_tables_bind. cbn [say trace outcome fst snd].
  rewrite inserted_tables_bind. cbn [lift trace outcome fst snd].
  destruct (load_csv _ _ _ _) as [rows|]; [|apply sublist_nil_l].
  rewrite inserted_tables_bind.
  set (block := if String.eqb table "GAME_STATS" then _ else _).
  assert (Hblock : inserted_tables (trace block) = []).
  { subst block. destruct (String.eqb table "GAME_STATS"); [|reflexivity].
    rewrite inserted_tables_bind, drop_orphans_silent.
    destruct (outcome (drop_orphans _ _ _)); [|reflexivity].
    rewrite inserted_tables_bind. destruct (bool_decide _); reflexivity. }
  rewrite Hblock. destruct (outcome block) as [kept|]; [|apply sublist_nil_l].
  rewrite inserted_tables_bind. unfold insert_rows.
  destruct kept as [|r kept]; cbn; [apply sublist_nil_l | reflexivity].
Qed.

Lemma tables_batches a tabs s :
  inserted_tables (trace (for_each (load_table files to_datetime a) tabs s))
    `sublist_of` (fst <$> tabs).
Proof.
  revert s. induction tabs as [|[table cols] tabs IH]; intros s; [done|].
  cbn [for_each]. rewrite inserted_tables_bind, fmap_cons.
  change ((table, cols).1 :: (fst <$> tabs)) with ([table] ++ (fst <$> tabs)).
  apply sublist_app; [apply load_table_batches|].
  destruct (outcome (load_table _ _ _ _ _)) as [[[] s']|]; try apply sublist_nil_l.
  apply IH.
Qed.

Lemma main_without_credentials a :
  ~ credentials_resolved env a ->
  main files to_datetime env a = ([], Raise (SystemExit "Missing credentials")).
Proof.
  unfold credentials_resolved, main. intros Hnot.
  destruct (truthy_str (or_env (user a) (ORACLE_USER env))); [|reflexivity].
  destruct (truthy_str (or_env (password a) (ORACLE_PASSWORD env))); [|reflexivity].
  destruct (truthy_str (or_env (dsn a) (ORACLE_DSN env))); [|reflexivity].
  by destruct Hnot.
Qed.

Lemma credentials_resolved_dec a : credentials_resolved env a \/ ~ credentials_resolved env a.
Proof.
  unfold credentials_resolved.
  destruct (truthy_str (or_env (user a) (ORACLE_USER env)));
    destruct (truthy_str (or_env (password a) (ORACLE_PASSWORD env)));
    destruct (truthy_str (or_env (dsn a) (ORACLE_DSN env))); intuition discriminate.
Qed.

Lemma reset_events_shape a :
  Forall (fun e => match e with Truncate _ | Commit => True | _ => False end) (reset_events a).
Proof. unfold reset_events. destruct (truncate a); repeat constructor. Qed.

End Run.

(** X8.  Nothing inserted is committed unless the whole run ends well.
    Without credentials the run ends at once, with nothing asked of the
    database; and whenever a commit comes after a batch of inserts, the run
    has ended well. *)
Theorem inserts_are_committed_only_at_the_end files to_datetime env a :
  (~ credentials_resolved env a ->
   main files to_datetime env a = ([], Raise (SystemExit "Missing credentials")))
  /\ forall tr1 table cols rows tr2,
       trace (main files to_datetime env a) = tr1 ++ ExecuteMany table cols rows :: tr2 ->
       Commit ∈ tr2 ->
       outcome (main files to_datetime env a) = Ok tt.
Proof.
  split; [apply main_without_credentials|].
  intros tr1 table cols rows tr2 Htr Hcommit.
  destruct (credentials_resolved_dec env a) as [Hcred|Hnot].
  2:{ rewrite (main_without_credentials files to_datetime env a Hnot) in Htr.
      by destruct tr1. }
  destruct (main_trace files to_datetime env a Hcred) as [Ht Ho]. cbv zeta in Ht, Ho.
  rewrite Ho. rewrite Ht in Htr.
  pose proof (tables_events files to_datetime a) as Hev. rewrite Forall_forall in Hev.
  destruct (outcome (for_each _ TABLE_ORDER _)) as [s|e]; [reflexivity|].
  exfalso. rewrite app_nil_r in Htr.
  assert (Hno : Commit ∉ trace (for_each (load_table files to_datetime a) TABLE_ORDER (∅, ∅))).
  { intros Hin. by destruct (Hev _ Hin) as (t & _ & []). }
  apply app_eq_inv in Htr as [(k & Hk1 & Hk2)|(k & Hk1 & Hk2)].
  - pose proof (reset_events_shape a) as Hreset. rewrite Hk1, Forall_app in Hreset.
    destruct Hreset as [_ Hk]. destruct k as [|x k].
    + cbn [app] in Hk2. apply Hno. rewrite <- Hk2. by right.
    + injection Hk2 as <- _. apply Forall_cons in Hk as [[] _].
  - apply Hno. rewrite Hk2. apply elem_of_app. right. by right.
Qed.

Lemma inserts_are_committed_only_at_the_end_witness :
  outcome (main sample_files sample_to_datetime sample_env sample_args) = Ok tt.
Proof.
  eapply (inserts_are_committed_only_at_the_end sample_files sample_to_datetime sample_env
            sample_args)
    with (tr1 := take 19 (trace (main sample_files sample_to_datetime sample_env sample_args)))
         (tr2 := [Print (Inserted "GAME_STATS" 1); Commit; Print AllDone]).
  - vm_compute. reflexivity.
  - by repeat constructor.
Defined.

(** X9.  A run asked to truncate clears the five tables before anything
    else, children before parents (the insertion order reversed), and
    commits; no table is truncated later, and none at all without the flag. *)
Theorem tables_are_truncated_first files to_datetime env a :
  credentials_resolved env a ->
  reset_events a
  = (if truncate a
     then [Truncate "GAME_STATS"; Truncate "GAME"; Truncate "COACH"; Truncate "PLAYER";
           Truncate "TEAM"; Commit]
     else [])
  /\ exists rest,
       trace (main files to_datetime env a) = reset_events a ++ rest
       /\ Forall (fun e => forall t, e <> Truncate t) rest.
Proof.
  intros Hcred. split; [unfold reset_events; by destruct (truncate a)|].
  destruct (main_trace files to_datetime env a Hcred) as [Ht _]. cbv zeta in Ht.
  eexists. split; [exact Ht|]. apply Forall_app. split.
  - eapply Forall_impl; [apply tables_events|].
    intros e (t & _ & He) t' ->. destruct He.
  - destruct (outcome _); repeat constructor; by intros t.
Qed.

Lemma tables_are_truncated_first_witness :
  reset_events sample_args
  = [Truncate "GAME_STATS"; Truncate "GAME"; Truncate "COACH"; Truncate "PLAYER";
     Truncate "TEAM"; Commit]
  /\ exists rest,
       trace (main sample_files sample_to_datetime sample_env sample_args)
       = reset_events sample_args ++ rest
       /\ Forall (fun e => forall t, e <> Truncate t) rest.
Proof.
  apply (tables_are_truncated_first sample_files sample_to_datetime sample_env sample_args).
  repeat split; reflexivity.
Defined.

(** X10.  Every batch handed to the database is for one of the five
    tables, with that table's columns, is not empty, and has in every tuple
    as many values as the statement has columns. *)
Theorem batches_fit_their_statement files to_datetime env a table cols rows :
  ExecuteMany table cols rows ∈ trace (main files to_datetime env a) ->
  (table, cols) ∈ TABLE_ORDER /\ rows <> []
  /\ Forall (fun r => length r = length cols) rows.
Proof.
  intros Hin.
  destruct (credentials_resolved_dec env a) as [Hcred|Hnot].
  2:{ rewrite (main_without_credentials files to_datetime env a Hnot) in Hin.
      by apply elem_of_nil in Hin. }
  destruct (main_trace files to_datetime env a Hcred) as [Ht _]. cbv zeta in Ht.
  rewrite Ht in Hin. apply elem_of_app in Hin as [Hin|Hin].
  { pose proof (reset_events_shape a) as Hreset. rewrite Forall_forall in Hreset.
    by destruct (Hreset _ Hin). }
  apply elem_of_app in Hin as [Hin|Hin].
  - pose proof (tables_events files to_datetime a) as Hev. rewrite Forall_forall in Hev.
    destruct (Hev _ Hin) as ([t c] & Ht' & -> & -> & Hne & Hw). done.
  - destruct (outcome _); [|by apply elem_of_nil in Hin].
    apply elem_of_cons in Hin as [|Hin]; [done|].
    apply elem_of_cons in Hin as [|Hin]; [done|]. by apply elem_of_nil in Hin.
Qed.

Lemma batches_fit_their_statement_witness :
  ("TEAM", ["TeamID"; "TeamName"; "City"; "Conference"; "Division"]) ∈ TABLE_ORDER
  /\ [[CNum 12; CStr "Chiefs"; CStr "Kansas"; CStr "AFC"; CStr "W"]] <> []
  /\ Forall (fun r => length r = length ["TeamID"; "TeamName"; "City"; "Conference"; "Division"])
       [[CNum 12; CStr "Chiefs"; CStr "Kansas"; CStr "AFC"; CStr "W"]].
Proof.
  apply (batches_fit_their_statement sample_files sample_to_datetime sample_env sample_args).
  vm_compute. do 7 right. left.
Defined.

(** X11.  The batches go to the database in the order TEAM, PLAYER, COACH,
    GAME, GAME_STATS, one for each table at most: no child table is filled
    before its parents. *)
Theorem batches_follow_table_order files to_datetime env a :
  inserted_tables (trace (main files to_datetime env a)) `sublist_of` (fst <$> TABLE_ORDER).
Proof.
  destruct (credentials_resolved_dec env a) as [Hcred|Hnot].
  2:{ rewrite (main_without_credentials files to_datetime env a Hnot). apply sublist_nil_l. }
  destruct (main_trace files to_datetime env a Hcred) as [Ht _]. cbv zeta in Ht.
  rewrite Ht. unfold inserted_tables. rewrite !omap_app.
  assert (Hreset : omap (fun e => match e with ExecuteMany t _ _ => Some t | _ => None end)
                     (reset_events a) = []).
  { unfold reset_events. by destruct (truncate a). }
  assert (Htail : omap (fun e => match e with ExecuteMany t _ _ => Some t | _ => None end)
                    (match outcome (for_each (load_table files to_datetime a) TABLE_ORDER (∅, ∅))
                     with Ok _ => [Commit; Print AllDone] | Raise _ => [] end) = []).
  { by destruct (outcome _). }
  rewrite Hreset, Htail, app_nil_r. apply tables_batches.
Qed.

End LoaderMore.

(* ===================================================================== *)
(** ** Further properties of the string helpers *)
(* ===================================================================== *)

Lemma str_app_cons c s t : String c s +:+ t = String c (s +:+ t).
Proof. reflexivity. Qed.

Lemma str_app_nil_l t : "" +:+ t = t.
Proof. reflexivity. Qed.

Lemma str_app_nil_r s : s +:+ "" = s.
Proof. induction s as [|c s IH]; [done | by rewrite str_app_cons, IH]. Qed.

Lemma str_app_assoc a b c : (a +:+ b) +:+ c = a +:+ (b +:+ c).
Proof. induction a as [|x a IH]; [done | by rewrite !str_app_cons, IH]. Qed.

Lemma rev_app_app s t acc :
  String.rev_app (s +:+ t) acc = String.rev_app t (String.rev_app s acc).
Proof.
  revert acc. induction s as [|c s IH]; intros acc; [done|].
  rewrite str_app_cons. simpl. apply IH.
Qed.

Lemma rev_app_rev_app s a b :
  String.rev_app (String.rev_app s a) b = String.rev_app a (s +:+ b).
Proof.
  revert a b. induction s as [|c s IH]; intros a b; [done|].
  simpl. by rewrite IH.
Qed.

Lemma rev_rev s : String.rev (String.rev s) = s.
Proof. unfold String.rev. rewrite rev_app_rev_app. exact (str_app_nil_r s). Qed.

Lemma str_all_app p s t : str_all p (s +:+ t) = str_all p s && str_all p t.
Proof.
  induction s as [|c s IH]; [done|].
  rewrite str_app_cons. simpl. by rewrite IH, andb_assoc.
Qed.

Lemma str_all_rev_app p s acc :
  str_all p (String.rev_app s acc) = str_all p s && str_all p acc.
Proof.
  revert acc. induction s as [|c s IH]; intros acc; simpl; [done|].
  rewrite IH. simpl. destruct (p c), (str_all p s); reflexivity.
Qed.

Lemma str_all_impl (p q : ascii -> bool) s :
  (forall c, p c = true -> q c = true) -> str_all p s = true -> str_all q s = true.
Proof.
  intros Hpq. induction s as [|c s IH]; simpl; [done|].
  intros [Hc Hs]%andb_true_iff. by rewrite (Hpq c Hc), IH.
Qed.

Lemma str_has_none (q : ascii -> bool) c s :
  (forall d, q d = true -> Ascii.eqb d c = false) -> str_all q s = true -> str_has c s = false.
Proof.
  intros Hq. induction s as [|d s IH]; simpl; [done|].
  intros [Hd Hs]%andb_true_iff. by rewrite (Hq d Hd), IH.
Qed.

Lemma str_has_app c s t : str_has c (s +:+ t) = str_has c s || str_has c t.
Proof.
  induction s as [|d s IH]; [done|].
  rewrite str_app_cons. simpl. by rewrite IH, orb_assoc.
Qed.

Lemma str_all_without c s :
  str_has c s = false -> str_all (fun d => negb (Ascii.eqb c d)) s = true.
Proof.
  induction s as [|d s IH]; simpl; [done|].
  intros [Hd Hs]%orb_false_iff. by rewrite Ascii.eqb_sym, Hd, IH.
Qed.

(** Stripping on the left takes nothing from a string that starts well, and
    on the right nothing from one that ends well. *)
Lemma lstrip_by_keep p t s :
  t <> "" -> str_all (fun c => negb (p c)) t = true -> lstrip_by p (t +:+ s) = t +:+ s.
Proof.
  destruct t as [|c t]; [done|]. rewrite str_app_cons. simpl.
  intros _ [Hc _]%andb_true_iff. by apply negb_true_iff in Hc as ->.
Qed.

Lemma lstrip_rev_app_drop p t acc :
  str_all p t = true -> lstrip_by p (String.rev_app t acc) = lstrip_by p acc.
Proof.
  revert acc. induction t as [|c t IH]; intros acc; simpl; [done|].
  intros [Hc Ht]%andb_true_iff. rewrite IH by done. simpl. by rewrite Hc.
Qed.

Lemma lstrip_rev_app_keep p t acc :
  t <> "" -> str_all (fun c => negb (p c)) t = true ->
  lstrip_by p (String.rev_app t acc) = String.rev_app t acc.
Proof.
  revert acc. induction t as [|c t IH]; intros acc; [done|]. simpl.
  intros _ [Hc Ht]%andb_true_iff. destruct t as [|d t].
  - simpl. by apply negb_true_iff in Hc as ->.
  - by apply IH.
Qed.

Lemma rstrip_by_drop p s t : str_all p t = true -> rstrip_by p (s +:+ t) = rstrip_by p s.
Proof.
  intros Ht. unfold rstrip_by. unfold String.rev at 2 4.
  by rewrite rev_app_app, lstrip_rev_app_drop.
Qed.

Lemma rstrip_by_keep p a t :
  t <> "" -> str_all (fun c => negb (p c)) t = true -> rstrip_by p (a +:+ t) = a +:+ t.
Proof.
  intros Hne Ht. unfold rstrip_by. unfold String.rev at 2.
  rewrite rev_app_app, lstrip_rev_app_keep by done.
  rewrite <- rev_app_app. apply rev_rev.
Qed.

Lemma strip_by_keep p s :
  str_all (fun c => negb (p c)) s = true -> rstrip_by p (lstrip_by p s) = s.
Proof.
  intros Hs. destruct s as [|c s]; [reflexivity|].
  rewrite <- (str_app_nil_r (String c s)) at 1. rewrite lstrip_by_keep by done.
  rewrite str_app_nil_r. by apply (rstrip_by_keep _ "").
Qed.

Lemma py_strip_keep s :
  str_all (fun c => negb (is_py_space c)) s = true -> py_strip s = s.
Proof. apply strip_by_keep. Qed.

(* --------------------------------------------------------------------- *)
(** *** Decimal numbers *)

Lemma pretty_N_char_digit m :
  (m < 10)%N ->
  is_digit (pretty_N_char m) = true /\ digit_val (pretty_N_char m) = Z.of_N m.
Proof.
  intros Hm.
  assert (m = 0 \/ m = 1 \/ m = 2 \/ m = 3 \/ m = 4 \/ m = 5 \/ m = 6 \/ m = 7 \/ m = 8
          \/ m = 9)%N as Hcases by lia.
  repeat (destruct Hcases as [->|Hcases]; [by vm_compute|]). subst m. by vm_compute.
Qed.

Lemma parse_digits_pretty_go x s :
  (0 < x)%N ->
  parse_digits (pretty_N_go x s) 0 false = parse_digits s (Z.of_N x) true.
Proof.
  revert s. induction (N.lt_wf_0 x) as [x _ IH]. intros s Hx.
  rewrite pretty_N_go_step by done.
  destruct (pretty_N_char_digit (x `mod` 10)) as [Hd Hv]; [by apply N.mod_lt|].
  assert (Hx10 : Z.of_N x = 10 * Z.of_N (x `div` 10) + Z.of_N (x `mod` 10)).
  { pose proof (N.div_mod x 10 ltac:(done)) as E.
    set (q := (x `div` 10)%N) in *. set (r := (x `mod` 10)%N) in *. clearbody q r. lia. }
  destruct (decide (x `div` 10 = 0)%N) as [H0|Hpos].
  - rewrite H0, pretty_N_go_0. rewrite H0 in Hx10. simpl. rewrite Hd, Hv.
    f_equal. lia.
  - rewrite IH; [| apply N.div_lt; lia | by apply N.neq_0_lt_0]. simpl. rewrite Hd, Hv.
    f_equal. lia.
Qed.

Lemma str_all_pretty_go x s : str_all is_digit (pretty_N_go x s) = str_all is_digit s.
Proof.
  revert s. induction (N.lt_wf_0 x) as [x _ IH]. intros s.
  destruct (decide (x = 0)%N) as [->|Hx]; [by rewrite pretty_N_go_0|].
  rewrite pretty_N_go_step by lia. rewrite IH by (apply N.div_lt; lia).
  simpl. by destruct (pretty_N_char_digit (x `mod` 10)) as [-> _]; [apply N.mod_lt|].
Qed.

Lemma pretty_go_nonempty x s : s <> "" -> pretty_N_go x s <> "".
Proof.
  revert s. induction (N.lt_wf_0 x) as [x _ IH]. intros s Hs.
  destruct (decide (x = 0)%N) as [->|Hx]; [by rewrite pretty_N_go_0|].
  rewrite pretty_N_go_step by lia. apply IH; [apply N.div_lt; lia | done].
Qed.

(** The decimal form of a natural number: digits only, read back by
    [parse_digits]. *)
Lemma pretty_N_digits (n : N) :
  pretty n <> "" /\ str_all is_digit (pretty n) = true
  /\ parse_digits (pretty n) 0 false = Some (Z.of_N n).
Proof.
  unfold pretty, pretty_N. destruct (decide (n = 0)%N) as [->|Hn]; [done|].
  split; [|split].
  - rewrite pretty_N_go_step by lia. by apply pretty_go_nonempty.
  - by rewrite str_all_pretty_go.
  - by rewrite parse_digits_pretty_go by lia.
Qed.

Lemma digit_not_blank c : is_digit c = true -> negb (is_int_space c) = true.
Proof. destruct c as [[] [] [] [] [] [] [] []]; by vm_compute. Qed.

Lemma count_digits_nonneg s : 0 <= count_digits s.
Proof. induction s as [|c s IH]; simpl; [done|]. destruct (is_digit c); lia. Qed.

(** A number below the [k]-th power of ten is written with [k] digits at
    most. *)
Lemma count_digits_pretty_go (k : N) :
  forall x s, (x < 10 ^ k)%N ->
    count_digits (pretty_N_go x s) <= Z.of_N k + count_digits s.
Proof.
  induction k as [|k IH] using N.peano_ind; intros x s Hx.
  - assert (x = 0%N) as -> by (change (10 ^ 0)%N with 1%N in Hx; lia).
    rewrite pretty_N_go_0. lia.
  - destruct (decide (x = 0)%N) as [->|Hpos].
    { rewrite pretty_N_go_0. lia. }
    rewrite pretty_N_go_step by lia.
    assert (Hdiv : (x `div` 10 < 10 ^ k)%N).
    { apply N.Div0.div_lt_upper_bound. by rewrite <- N.pow_succ_r'. }
    specialize (IH _ (String (pretty_N_char (x `mod` 10)) s) Hdiv).
    simpl count_digits in IH. destruct (is_digit (pretty_N_char (x `mod` 10))); lia.
Qed.

Lemma count_digits_pretty (k : N) (n : N) :
  (n < 10 ^ k)%N -> (0 < k)%N -> count_digits (pretty n) <= Z.of_N k.
Proof.
  intros Hn Hk. unfold pretty, pretty_N. destruct (decide (n = 0)%N) as [->|Hpos].
  - simpl. lia.
  - pose proof (count_digits_pretty_go k n "" Hn) as H. simpl count_digits in H. lia.
Qed.

Lemma int_of_str_digits d :
  str_all is_digit d = true -> count_digits d <= int_max_str_digits ->
  int_of_str d = parse_digits d 0 false.
Proof.
  intros Hd Hcount. unfold int_of_str.
  rewrite strip_by_keep by (eapply str_all_impl; [apply digit_not_blank | done]).
  assert (Hdec : parse_decimal d = parse_digits d 0 false).
  { unfold parse_decimal. by rewrite (proj2 (Z.ltb_ge _ _) Hcount). }
  destruct d as [|c r]; [done|]. rewrite <- Hdec.
  simpl in Hd. apply andb_true_iff in Hd as [Hc _].
  destruct c as [[] [] [] [] [] [] [] []]; first [discriminate Hc | reflexivity].
Qed.

(** [int(str(z))] is [z], for an integer within the digit limit. *)
Lemma pretty_Z_token (z : Z) :
  Z.abs z < 10 ^ int_max_str_digits ->
  pretty z <> "" /\ str_all number_char (pretty z) = true
  /\ int_of_str (pretty z) = Some z.
Proof.
  intros Hz.
  assert (Hdigit : forall c, is_digit c = true -> number_char c = true).
  { intros c Hc. unfold number_char. by rewrite Hc. }
  assert (Hcount : forall p : positive,
             Z.pos p < 10 ^ int_max_str_digits ->
             count_digits (pretty (N.pos p)) <= int_max_str_digits).
  { intros p Hp. apply (count_digits_pretty 4300 (N.pos p)); [|done].
    apply N2Z.inj_lt. rewrite N2Z.inj_pow. exact Hp. }
  unfold pretty, pretty_Z. destruct z as [|p|p]; [done| |].
  - destruct (pretty_N_digits (N.pos p)) as (Hne & Hall & Hval). split; [done|].
    split; [by eapply str_all_impl|].
    change (pretty p) with (pretty (N.pos p)).
    rewrite int_of_str_digits; [exact Hval | done | by apply Hcount].
  - destruct (pretty_N_digits (N.pos p)) as (Hne & Hall & Hval).
    change (pretty p) with (pretty (N.pos p)).
    change ("-" +:+ pretty (N.pos p)) with (String "-" (pretty (N.pos p))).
    split; [done|]. split.
    + simpl. by eapply str_all_impl.
    + unfold int_of_str. rewrite strip_by_keep.
      * unfold parse_decimal.
        rewrite (proj2 (Z.ltb_ge _ _) (Hcount p Hz)). by rewrite Hval.
      * simpl. eapply str_all_impl; [|exact Hall]. apply digit_not_blank.
Qed.

(* --------------------------------------------------------------------- *)
(** *** References *)

Lemma split_on_clean sep s : str_has sep s = false -> split_on sep s = [s].
Proof.
  induction s as [|c s IH]; [done|]. simpl.
  intros [Hc Hs]%orb_false_iff. by rewrite Hc, IH.
Qed.

Lemma split_on_nonempty sep s : split_on sep s <> [].
Proof.
  destruct s as [|c s]; [done|]. simpl.
  destruct (Ascii.eqb c sep); [done|]. by destruct (split_on sep s).
Qed.

Lemma split_on_app sep a b :
  exists h t, split_on sep (a +:+ String sep b) = h :: t ++ split_on sep b.
Proof.
  induction a as [|c a (h & t & IH)].
  - exists "", []. rewrite str_app_nil_l. simpl. by rewrite Ascii.eqb_refl.
  - rewrite str_app_cons. simpl. rewrite IH. destruct (Ascii.eqb c sep).
    + by exists "", (h :: t).
    + by exists (String c h), t.
Qed.

Lemma split_on_last sep a b :
  str_has sep b = false -> last (split_on sep (a +:+ String sep b)) = Some b.
Proof.
  intros Hb. destruct (split_on_app sep a b) as (h & t & ->).
  rewrite (split_on_clean sep b Hb).
  change (h :: t ++ [b]) with ((h :: t) ++ [b]). apply last_snoc.
Qed.

Lemma split_on_head sep a b :
  str_has sep a = false -> head (split_on sep (a +:+ String sep b)) = Some a.
Proof.
  induction a as [|c a IH].
  - intros _. rewrite str_app_nil_l. simpl. by rewrite Ascii.eqb_refl.
  - intros [Hc Ha]%orb_false_iff. rewrite str_app_cons. simpl. rewrite Hc.
    specialize (IH Ha). destruct (split_on sep (a +:+ String sep b)) as [|h t]; [done|].
    simpl in IH. by injection IH as ->.
Qed.

Lemma number_char_not c d :
  is_digit d = false -> Ascii.eqb d "-" = false ->
  number_char c = true -> Ascii.eqb c d = false.
Proof.
  intros Hd Hm Hc. destruct (Ascii.eqb c d) eqn:Heq; [|done].
  apply Ascii.eqb_eq in Heq as ->. unfold number_char in Hc. by rewrite Hd, Hm in Hc.
Qed.

(** X13.  A reference that ends in an integer path segment gives that
    integer, whether the reference stops there, goes on with slashes, or
    goes on with a query string; the integer is one Python reads and
    writes, of 4300 digits at most. *)
Theorem parse_id_from_ref_reads_last_segment base (z : Z) tail :
  Z.abs z < 10 ^ int_max_str_digits ->
  str_all (Ascii.eqb "/") tail = true
  \/ (exists q, tail = String "?" q /\ str_has "/" q = false) ->
  parse_id_from_ref (JStr (base +:+ "/" +:+ pretty z +:+ tail)) = Some z.
Proof.
  intros Hz Htail. destruct (pretty_Z_token z Hz) as (Hne & Hall & Hval).
  set (d := pretty z) in *. clearbody d.
  assert (Hslash : str_has "/" d = false).
  { eapply str_has_none; [|exact Hall]. intros c. by apply number_char_not. }
  assert (Hquery : str_has "?" d = false).
  { eapply str_has_none; [|exact Hall]. intros c. by apply number_char_not. }
  unfold parse_id_from_ref.
  assert (Htruthy : truthy (JStr (base +:+ "/" +:+ d +:+ tail)) = true).
  { simpl. by destruct base. }
  rewrite Htruthy. simpl negb. cbv iota.
  destruct Htail as [Htail|(q & -> & Hq)].
  - rewrite <- !str_app_assoc, rstrip_by_drop by done.
    rewrite rstrip_by_keep; [|done|by apply str_all_without].
    rewrite str_app_assoc. change ("/" +:+ d) with (String "/" d).
    rewrite split_on_last by done. simpl default.
    by rewrite (split_on_clean "?" d Hquery).
  - assert (Hrest : str_has "/" (d +:+ String "?" q) = false).
    { rewrite str_has_app, Hslash. exact Hq. }
    rewrite <- (str_app_assoc base "/"), rstrip_by_keep.
    + rewrite str_app_assoc. change ("/" +:+ d +:+ String "?" q) with (String "/" (d +:+ String "?" q)).
      rewrite split_on_last by done. simpl default. by rewrite split_on_head.
    + by destruct d.
    + by apply str_all_without.
Qed.

Lemma parse_id_from_ref_reads_last_segment_witness :
  parse_id_from_ref
    (JStr ("http://sports.core.api.espn.com/v2/athletes" +:+ "/" +:+ pretty 3139477
           +:+ "?lang=en&region=us"))
  = Some 3139477.
Proof.
  apply (parse_id_from_ref_reads_last_segment "http://sports.core.api.espn.com/v2/athletes"
           3139477 "?lang=en&region=us").
  - vm_compute. reflexivity.
  - right. exists "lang=en&region=us". split; reflexivity.
Defined.

(* --------------------------------------------------------------------- *)
(** *** Names *)

Lemma py_split_go_word w cur s :
  str_all (fun c => negb (is_py_space c)) w = true ->
  py_split_go cur (w +:+ s) = py_split_go (String.rev_app w cur) s.
Proof.
  revert cur. induction w as [|c w IH]; intros cur; [done|].
  intros [Hc Hw]%andb_true_iff. rewrite str_app_cons. simpl.
  apply negb_true_iff in Hc as ->. by apply IH.
Qed.

Lemma rev_word w : w <> "" -> String.rev w <> "".
Proof. destruct w as [|c w]; [done|]. intros _. apply rev_nonempty. Qed.

Lemma py_split_word w : word w -> py_split w = [w].
Proof.
  intros [Hne Hw]. unfold py_split.
  rewrite <- (str_app_nil_r w) at 1. rewrite py_split_go_word by done.
  simpl. fold (String.rev w). pose proof (rev_word w Hne) as Hrev.
  destruct (String.rev w) eqn:Hr; [done|]. by rewrite <- Hr, rev_rev.
Qed.

Lemma py_split_cons w rest :
  word w -> py_split (w +:+ " " +:+ rest) = w :: py_split rest.
Proof.
  intros [Hne Hw]. unfold py_split. rewrite py_split_go_word by done.
  change (" " +:+ rest) with (String " " rest). simpl.
  fold (String.rev w). pose proof (rev_word w Hne) as Hrev.
  destruct (String.rev w) eqn:Hr; [done|]. by rewrite <- Hr, rev_rev.
Qed.

(** [" ".join(ws).split()] gives the words back. *)
Lemma py_split_unwords ws : Forall word ws -> py_split (unwords ws) = ws.
Proof.
  induction 1 as [|w ws Hw Hws IH]; [reflexivity|].
  destruct ws as [|w' ws]; [by apply py_split_word|].
  change (unwords (w :: w' :: ws)) with (w +:+ " " +:+ unwords (w' :: ws)).
  by rewrite py_split_cons, IH.
Qed.

Lemma rstrip_unwords pre ws :
  ws <> [] -> Forall word ws ->
  rstrip_by is_py_space (pre +:+ unwords ws) = pre +:+ unwords ws.
Proof.
  intros Hne Hws. revert pre. induction Hws as [|w ws [Hw1 Hw2] Hws IH]; intros pre; [done|].
  destruct ws as [|w' ws]; [by apply rstrip_by_keep|].
  change (unwords (w :: w' :: ws)) with (w +:+ " " +:+ unwords (w' :: ws)).
  rewrite <- !str_app_assoc. by apply IH.
Qed.

Lemma py_strip_unwords ws : Forall word ws -> py_strip (unwords ws) = unwords ws.
Proof.
  intros Hws. destruct Hws as [|w ws [Hw1 Hw2] Hws]; [reflexivity|]. unfold py_strip.
  assert (Hl : lstrip_by is_py_space (unwords (w :: ws)) = unwords (w :: ws)).
  { destruct ws as [|w' ws].
    - rewrite <- (str_app_nil_r w). by apply lstrip_by_keep.
    - by apply lstrip_by_keep. }
  rewrite Hl. apply (rstrip_unwords "" (w :: ws)); [done | by constructor].
Qed.

Lemma unwords_nonempty w ws : w <> "" -> unwords (w :: ws) <> "".
Proof. destruct w; [done|]. by destruct ws. Qed.

(** X14.  Of a name made of words with single blanks between them,
    [split_name] keeps the first word and the last one and drops what is
    between; a name of one word has no last name. *)
Theorem split_name_keeps_first_and_last_word fname middle lname :
  word fname -> Forall word middle -> word lname ->
  split_name (JStr (unwords (fname :: middle ++ [lname]))) = Ok (fname, lname)
  /\ split_name (JStr fname) = Ok (fname, "").
Proof.
  intros Hf Hm Hl.
  assert (Hall : Forall word (fname :: middle ++ [lname])).
  { constructor; [done|]. apply Forall_app. split; [done | by constructor]. }
  assert (Htruthy : forall s, s <> "" -> py_or (JStr s) (JStr "") = JStr s).
  { intros s Hs. unfold py_or. simpl. by destruct s. }
  split.
  - unfold split_name. rewrite Htruthy by (apply unwords_nonempty, Hf).
    unfold split_name_str. rewrite py_strip_unwords, py_split_unwords by done.
    destruct middle as [|m middle]; [done|].
    change ((m :: middle) ++ [lname]) with (m :: middle ++ [lname]).
    by rewrite last_cons, last_snoc.
  - unfold split_name. rewrite Htruthy by apply Hf.
    unfold split_name_str.
    assert (Hone : Forall word [fname]) by by constructor.
    pose proof (py_strip_unwords [fname] Hone) as E1.
    pose proof (py_split_unwords [fname] Hone) as E2.
    change (unwords [fname]) with fname in E1, E2. by rewrite E1, E2.
Qed.

Lemma split_name_keeps_first_and_last_word_witness :
  split_name (JStr (unwords ("Patrick" :: ["Lavon"] ++ ["Mahomes"]))) = Ok ("Patrick", "Mahomes")
  /\ split_name (JStr "Patrick") = Ok ("Patrick", "").
Proof.
  apply (split_name_keeps_first_and_last_word "Patrick" ["Lavon"] "Mahomes").
  - by split.
  - by repeat constructor.
  - by split.
Defined.

Lemma py_split_go_clean cur s :
  str_all (fun c => negb (is_py_space c)) cur = true ->
  Forall word (py_split_go cur s).
Proof.
  assert (Hrev : forall t, t <> "" -> str_all (fun c => negb (is_py_space c)) t = true ->
                           word (String.rev t)).
  { intros t Ht Hall. split; [by apply rev_word|].
    unfold String.rev. by rewrite str_all_rev_app, Hall. }
  revert cur. induction s as [|c s IH]; intros cur Hcur; simpl.
  - destruct cur; [constructor|]. constructor; [by apply Hrev | constructor].
  - destruct (is_py_space c) eqn:Hc.
    + destruct cur; [by apply IH|]. constructor; [by apply Hrev | by apply IH].
    + apply IH. simpl. by rewrite Hc.
Qed.

(** X15.  Whatever the name, the two parts [split_name] gives have no blank
    in them, and there is no last name without a first name. *)
Theorem split_name_parts_are_words full_name fname lname :
  split_name full_name = Ok (fname, lname) ->
  (fname = "" \/ word fname) /\ (lname = "" \/ word lname) /\ (fname = "" -> lname = "").
Proof.
  unfold split_name. destruct (py_or full_name (JStr "")) as [| | |s| |]; try discriminate.
  intros H. apply Ok_eq in H. unfold split_name_str in H.
  pose proof (py_split_go_clean "" (py_strip s) eq_refl) as Hwords.
  fold (py_split (py_strip s)) in Hwords.
  destruct (py_split (py_strip s)) as [|p [|p' rest]].
  - injection H as <- <-. auto.
  - injection H as <- <-. apply Forall_cons in Hwords as [Hp _].
    split; [by right|]. split; [by left|]. intros ->. by destruct Hp.
  - injection H as <- <-. apply Forall_cons in Hwords as [Hp Hrest].
    split; [by right|]. split.
    + destruct (last (p' :: rest)) as [l|] eqn:Hlast; [|by left]. right.
      apply last_Some_elem_of in Hlast. rewrite Forall_forall in Hrest. by apply Hrest.
    + intros ->. by destruct Hp.
Qed.

Lemma split_name_parts_are_words_witness :
  ("Travis" = "" \/ word "Travis") /\ ("Kelce" = "" \/ word "Kelce")
  /\ ("Travis" = "" -> "Kelce" = "").
Proof.
  apply (split_name_parts_are_words (JStr "  Travis  Michael Kelce ")). reflexivity.
Defined.

(* --------------------------------------------------------------------- *)
(** *** Conferences and divisions *)

Lemma upper_char_twice c : upper_char (upper_char c) = upper_char c.
Proof. destruct c as [[] [] [] [] [] [] [] []]; reflexivity. Qed.

Lemma py_upper_twice s : py_upper (py_upper s) = py_upper s.
Proof. induction s as [|c s IH]; simpl; [done|]. by rewrite upper_char_twice, IH. Qed.

Lemma table_get_elem {A} k (t : list (string * A)) v :
  table_get k t = Some v -> v ∈ snd <$> t.
Proof.
  induction t as [|[k' v'] t IH]; simpl; [done|].
  destruct (String.eqb k k').
  - intros [= ->]. by left.
  - intros H. right. by apply IH.
Qed.

(** X16.  Whatever the abbreviation and its letter case, the conference is
    AFC or NFC and the division one of E, N, S, W, or both are empty; and
    putting the abbreviation in upper case first changes nothing. *)
Theorem conf_div_from_abbr_range abbr :
  (conf_div_from_abbr abbr = ("", "")
   \/ (conf_div_from_abbr abbr).1 ∈ ["AFC"; "NFC"]
      /\ (conf_div_from_abbr abbr).2 ∈ ["E"; "N"; "S"; "W"])
  /\ conf_div_from_abbr (py_upper abbr) = conf_div_from_abbr abbr.
Proof.
  split; [|unfold conf_div_from_abbr; by rewrite py_upper_twice].
  unfold conf_div_from_abbr.
  destruct (table_get (py_upper abbr) conf_div_table) as [cd|] eqn:Hget; [|by left].
  right. apply table_get_elem in Hget. simpl default.
  assert (Hall : Forall (fun cd : string * string =>
                           cd.1 ∈ ["AFC"; "NFC"] /\ cd.2 ∈ ["E"; "N"; "S"; "W"])
                   (snd <$> conf_div_table)).
  { unfold conf_div_table. simpl fmap.
    repeat first [ apply List.Forall_nil | apply List.Forall_cons | split
                 | apply list_elem_of_here | apply list_elem_of_further ]. }
  rewrite Forall_forall in Hall. by apply Hall.
Qed.

(* ===================================================================== *)
(** ** Further properties of the extractor's run *)
(* ===================================================================== *)

(** X17.  Once statistics have been built, the PLAYER table keeps only
    players with a statistics row; a run without statistics keeps every
    player of the rosters, once. *)
Theorem kept_players_have_statistics net this_year a f :
  outcome (main net this_year a) = Ok f ->
  (GAME_STATS f <> [] ->
   forall p, p ∈ PLAYER f -> exists r, r ∈ GAME_STATS f /\ StatPlayerID r = PlayerID p)
  /\ (GAME_STATS f = [] ->
      exists rows, outcome (load_all_rosters net (team_id_list (TEAM f))) = Ok rows
                   /\ PLAYER f = drop_duplicates PlayerID rows).
Proof.
  intros (rows & meta & _ & Hrows & Hplayers & _)%main_ok_inv. split.
  - intros Hne p Hp. rewrite Hplayers in Hp. unfold player_table in Hp.
    destruct (GAME_STATS f) as [|r0 stats] eqn:Hstats; [done|].
    unfold prune_players in Hp. apply list_elem_of_filter in Hp as [Hin _].
    apply elem_of_list_to_set, list_elem_of_fmap in Hin as (r & Hr & Hin). eauto.
  - intros Hnil. exists rows. split; [done|]. by rewrite Hplayers, Hnil.
Qed.

Lemma kept_players_have_statistics_witness :
  (GAME_STATS sample_frames <> [] ->
   forall p, p ∈ PLAYER sample_frames ->
     exists r, r ∈ GAME_STATS sample_frames /\ StatPlayerID r = PlayerID p)
  /\ (GAME_STATS sample_frames = [] ->
      exists rows,
        outcome (load_all_rosters Sample.net (team_id_list (TEAM sample_frames))) = Ok rows
        /\ PLAYER sample_frames = drop_duplicates PlayerID rows).
Proof.
  apply (kept_players_have_statistics Sample.net 2024 Sample.run_args sample_frames).
  vm_compute. reflexivity.
Defined.

Lemma written_none tr : Forall quiet tr -> written tr = [].
Proof.
  induction 1 as [|e tr He _ IH]; [reflexivity|].
  destruct e; first [exact IH | destruct He].
Qed.

Lemma fetch_json_quiet net url : Forall quiet (trace (fetch_json net url)).
Proof.
  unfold fetch_json. destruct url; try (by repeat constructor).
  destruct (net s); by repeat constructor.
Qed.

Lemma info_quiet msg : Forall quiet (trace (info msg)).
Proof. by repeat constructor. Qed.

(** Takes the trace of a stage apart, down to the remote calls and the
    printed lines. *)
Ltac quiet_stage :=
  repeat first
    [ apply fetch_json_quiet | apply info_quiet | trace_step | progress cbv beta
    | progress unfold load_teams, load_all_players, load_all_rosters, load_roster,
        load_coaches, coach_item, load_games, scan_week, game_event, fetch_score,
        load_game_stats, stats_entry, process_entry, stats_competitor, stats_athlete,
        stats_lookup, fetch_if ].

Lemma load_teams_quiet net : Forall quiet (trace (load_teams net)).
Proof. quiet_stage. Qed.

Lemma load_all_players_quiet net team_ids :
  Forall quiet (trace (load_all_players net team_ids)).
Proof. quiet_stage. Qed.

Lemma load_coaches_quiet net team_ids season :
  Forall quiet (trace (load_coaches net team_ids season)).
Proof. quiet_stage. Qed.

Lemma load_games_quiet net season max_weeks :
  Forall quiet (trace (load_games net season max_weeks)).
Proof. quiet_stage. Qed.

Lemma load_game_stats_quiet net meta : Forall quiet (trace (load_game_stats net meta)).
Proof. quiet_stage. Qed.

Lemma written_bind_quiet {A B} (F : result B -> list (string * nat))
    (m : IO A) (g : A -> IO B) :
  (forall e, F (Raise e) = []) ->
  Forall quiet (trace m) ->
  (forall x, written (trace (g x)) = F (outcome (g x))) ->
  written (trace (m ≫= g)) = F (outcome (m ≫= g)).
Proof.
  intros HF Hm Hg. rewrite trace_bind, outcome_bind. unfold written at 1.
  rewrite omap_app. fold (written (trace m)). rewrite (written_none _ Hm).
  destruct (outcome m) as [x|e]; [exact (Hg x) | exact (eq_sym (HF e))].
Qed.

(** X18.  Files are written only by a run that asked for it and got through
    every stage: then the five tables are written once each, in the order
    TEAM, PLAYER, COACH, GAME, GAME_STATS, with exactly the rows of the
    frames the run returns.  A run that fails part-way writes nothing. *)
Theorem files_are_written_last_and_whole net this_year a :
  written (trace (main net this_year a))
  = match outcome (main net this_year a) with
    | Ok f =>
        if save a
        then [("TEAM", length (TEAM f)); ("PLAYER", length (PLAYER f));
              ("COACH", length (COACH f)); ("GAME", length (GAME f));
              ("GAME_STATS", length (GAME_STATS f))]
        else []
    | Raise _ => []
    end.
Proof.
  set (F := fun r : result frames =>
              match r with
              | Ok f =>
                  if save a
                  then [("TEAM", length (TEAM f)); ("PLAYER", length (PLAYER f));
                        ("COACH", length (COACH f)); ("GAME", length (GAME f));
                        ("GAME_STATS", length (GAME_STATS f))]
                  else []
              | Raise _ => []
              end).
  change (written (trace (main net this_year a)) = F (outcome (main net this_year a))).
  unfold main. cbv zeta.
  apply written_bind_quiet; [done | apply info_quiet | intros _].
  apply written_bind_quiet; [done | apply load_teams_quiet | intros teams].
  apply written_bind_quiet; [done | apply load_all_players_quiet | intros players].
  apply written_bind_quiet; [done | apply load_coaches_quiet | intros coaches].
  apply written_bind_quiet; [done | apply load_games_quiet | intros g].
  apply written_bind_quiet; [done | | intros game_stats].
  { destruct (skip_game_stats a); [constructor | apply load_game_stats_quiet]. }
  apply written_bind_quiet; [done | | intros kept].
  { destruct game_stats; by repeat constructor. }
  unfold F. destruct (save a); reflexivity.
Qed.
